(** * Monte Carlo pricers of path-dependent options: a shallow embedding

    The four pricers of [Rendu projet/] ([pricer_vanilla.py],
    [pricer_tunnel.py], [pricer_napoleon.py], [pricer_himalaya.py]) are
    embedded as functions over the real numbers.

    - binary64 values are idealised as [R]: rounding, overflow, [inf] and
      [nan] are outside the model.  Where Python or NumPy would produce
      [nan] or divide by zero the statements carry the hypotheses that
      exclude it.
    - [np.random.normal(0, 1)] reads a global generator: the generator is an
      explicit stream of draws threaded through the simulation.
    - [scipy.stats.norm.ppf] is an external function: it is a parameter of
      the convergence estimator.
    - Python exceptions are values of [Py.result].

    Of [RAROC_final.py] the two table lookups are embedded ([Raroc]). *)

From Stdlib Require Import Reals Lra Lia List ZArith.
From Stdlib Require String.
Import ListNotations.
Open Scope R_scope.

(** ** Python lists, ranges and exceptions *)

Module Py.

Inductive exn : Type := IndexError | ValueError.

Inductive result (A : Type) : Type :=
| Ok (a : A)
| Raise (e : exn).

Arguments Ok {A} a.
Arguments Raise {A} e.

Definition bind {A B : Type} (r : result A) (k : A -> result B) : result B :=
  match r with
  | Ok a => k a
  | Raise e => Raise e
  end.

(** [l[i]] for an index [i >= 0]. *)
Definition getitem {A : Type} (l : list A) (i : nat) : result A :=
  match nth_error l i with
  | Some a => Ok a
  | None => Raise IndexError
  end.

(** [l[-1]]. *)
Definition last_item {A : Type} (l : list A) : result A :=
  match rev l with
  | a :: _ => Ok a
  | [] => Raise IndexError
  end.

(** [l[lo:hi]] for [0 <= lo] and [0 <= hi]; a stop below the start gives the
    empty list, as the truncated subtraction does. *)
Definition slice {A : Type} (lo hi : nat) (l : list A) : list A :=
  firstn (hi - lo) (skipn lo l).

(** [range(lo, hi)]. *)
Definition range (lo hi : nat) : list nat := seq lo (hi - lo).

(** [range(0, n, k)] for a step [k > 0]: the multiples of [k] below [n]. *)
Definition range_step (n k : nat) : list nat :=
  map (fun q => (k * q)%nat) (seq 0 ((n + (k - 1)) / k)).

(** [min(l)] under the guard [min(l) if l else d]. *)
Definition min_or (d : R) (l : list R) : R :=
  match l with
  | [] => d
  | x :: l' => fold_left Rmin l' x
  end.

End Py.

Notation "x <- c ;; k" := (Py.bind c (fun x => k))
  (at level 61, c at next level, right associativity).

(** ** NumPy reductions and [arange] *)

Module Np.

Definition sum (l : list R) : R := fold_right Rplus 0 l.

(** [np.mean(l)]. *)
Definition mean (l : list R) : R := sum l / INR (length l).

(** [np.std(l)] with its default [ddof=0]:
    [sqrt(mean(abs(l - mean(l))**2))]. *)
Definition std (l : list R) : R :=
  sqrt (mean (map (fun x => (x - mean l) ^ 2) l)).

(** [np.max(l)] over a flat array: [ValueError] on a zero-size array. *)
Definition max (l : list R) : Py.result R :=
  match l with
  | [] => Py.Raise Py.ValueError
  | x :: l' => Py.Ok (fold_left Rmax l' x)
  end.

Definition ceil (x : R) : Z := (- Int_part (- x))%Z.

(** [np.arange(start, stop, step)]: [ceil((stop - start)/step)] values
    [start + i*step]. *)
Definition arange (start stop step : R) : list R :=
  map (fun i => start + INR i * step)
      (seq 0 (Z.to_nat (ceil ((stop - start) / step)))).

End Np.

(** ** The random generator *)

(** The draws [np.random.normal(0, 1)] will return, in order. *)
Definition rng : Type := nat -> R.

Definition normal (g : rng) : R * rng := (g O, fun n => g (S n)).

(** ** Geometric Brownian motion

    [simulate_gbm] (Vanilla, Tunnel) and
    [simulate_geometric_brownian_motion] (Napoleon) have the same body:
<<
    S = [S_0]
    for i in range(1, len(t)):
        dt = t[i] - t[i-1]
        S.append(S[-1] * np.exp((mu - (sigma**2)/2)*dt
                                + sigma*np.sqrt(dt)*np.random.normal(0, 1)))
    return S
>> *)

Section GBM.

Variables S_0 mu sigma : R.

Definition gbm_step (t : list R) (st : list R * rng) (i : nat)
  : list R * rng :=
  let (S, g) := st in
  let dt := nth i t 0 - nth (i - 1) t 0 in
  let (z, g') := normal g in
  (S ++ [last S 0 * exp ((mu - sigma ^ 2 / 2) * dt + sigma * sqrt dt * z)],
   g').

Definition gbm_path (t : list R) (g : rng) : list R * rng :=
  fold_left (gbm_step t) (Py.range 1 (length t)) ([S_0], g).

End GBM.

(** ** The convergence estimator

    [perform_monte_carlo] (Vanilla), [convergence_mc] (Tunnel) and
    [monte_carlo_convergence] (Napoleon, Himalaya) have the same body:
<<
    a = norm.ppf(self.confidence_interval)
    for i in range(len(payoffs)):
        moving_average.append(np.mean(payoffs[:i+1]))
        standard_deviation.append(np.std(payoffs[:i+1]))
        lower_bound.append(moving_average[-1]
            - a * standard_deviation[-1] / np.sqrt(i) if i > 0
            else moving_average[-1])
        upper_bound.append(... + ...)
    return moving_average, lower_bound, upper_bound
>> *)

Record series : Type := {
  moving_average : list R;
  standard_deviation : list R;
  lower_bound : list R;
  upper_bound : list R
}.

Definition convergence_step (a : R) (payoffs : list R) (s : series) (i : nat)
  : series :=
  let M := moving_average s ++ [Np.mean (firstn (i + 1) payoffs)] in
  let ET := standard_deviation s ++ [Np.std (firstn (i + 1) payoffs)] in
  let lb := lower_bound s ++
    [if (0 <? i)%nat then last M 0 - a * last ET 0 / sqrt (INR i)
     else last M 0] in
  let ub := upper_bound s ++
    [if (0 <? i)%nat then last M 0 + a * last ET 0 / sqrt (INR i)
     else last M 0] in
  {| moving_average := M; standard_deviation := ET;
     lower_bound := lb; upper_bound := ub |}.

Definition convergence_loop (a : R) (payoffs : list R) : series :=
  fold_left (convergence_step a payoffs) (Py.range 0 (length payoffs))
    {| moving_average := []; standard_deviation := [];
       lower_bound := []; upper_bound := [] |}.

Definition convergence (norm_ppf : R -> R) (confidence : R)
  (payoffs : list R) : list R * list R * list R :=
  let a := norm_ppf confidence in
  let s := convergence_loop a payoffs in
  (moving_average s, lower_bound s, upper_bound s).

(** The numbers [generate_convergence_curve] puts in the plot title:
<<
    final_price = moving_average[-1]
    error = upper_bound[-1] - lower_bound[-1]
>> *)
Definition final_report (c : list R * list R * list R) : Py.result (R * R) :=
  let '(M, lb, ub) := c in
  final_price <- Py.last_item M;;
  u <- Py.last_item ub;;
  l <- Py.last_item lb;;
  Py.Ok (final_price, u - l).

(** ** Vanilla: [McSimul] of [pricer_vanilla.py] *)

Module Vanilla.

Record McSimul : Type := {
  initial_stock_price : R;
  strike_price : R;
  volatility : R;
  drift : R;
  maturity : R;
  confidence_interval : R;
  num_simulations : Z
}.

(** [t_1 = np.arange(0, 60/252, 1/252)],
    [t_2 = np.arange(self.maturity-59/252, self.maturity, 1/252)]. *)
Definition generate_time_vector (self : McSimul) : list R :=
  Np.arange 0 (60 / 252) (1 / 252)
  ++ Np.arange (maturity self - 59 / 252) (maturity self) (1 / 252).

Definition simulate_gbm (self : McSimul) (time_vector : list R) (g : rng)
  : list R * rng :=
  gbm_path (initial_stock_price self) (drift self) (volatility self)
    time_vector g.

(** [np.max([np.mean(stock_prices[61:]) / np.mean(stock_prices[:60])
             - self.strike_price, 0])]. *)
Definition calculate_payoff (self : McSimul) (stock_prices : list R) : R :=
  Rmax (Np.mean (skipn 61 stock_prices) / Np.mean (firstn 60 stock_prices)
        - strike_price self) 0.

(** The loop [for _ in range(int(self.num_simulations))] of
    [simulate_monte_carlo], [n] trials left. *)
Fixpoint trials (self : McSimul) (time_vector : list R) (n : nat)
  (payoffs : list R) (g : rng) : list R * rng :=
  match n with
  | O => (payoffs, g)
  | S n' =>
      let (stock_prices, g') := simulate_gbm self time_vector g in
      trials self time_vector n'
        (payoffs ++ [calculate_payoff self stock_prices]) g'
  end.

Definition simulate_monte_carlo (self : McSimul) (g : rng) : list R * rng :=
  let time_vector := generate_time_vector self in
  trials self time_vector (Z.to_nat (num_simulations self)) [] g.

Definition perform_monte_carlo (norm_ppf : R -> R) (self : McSimul)
  (payoffs : list R) : list R * list R * list R :=
  convergence norm_ppf (confidence_interval self) payoffs.

(** [generate_convergence_curve] without the drawing: the final price and
    the error of the plot title. *)
Definition generate_convergence_curve (norm_ppf : R -> R) (self : McSimul)
  (g : rng) : Py.result (R * R) :=
  let (payoffs, _) := simulate_monte_carlo self g in
  final_report (perform_monte_carlo norm_ppf self payoffs).

End Vanilla.

(** ** Tunnel: [TunnelOptionPricer] of [pricer_tunnel.py] *)

Module Tunnel.

Record TunnelOptionPricer : Type := {
  S_0 : R;
  K : list R;
  sigma : R;
  mu : R;
  Ns : Z;
  IC : R;
  alpha : R;
  beta : R;
  maturity : R
}.

(** [np.arange(0, self.maturity, 1/4)]. *)
Definition generate_t (self : TunnelOptionPricer) : list R :=
  Np.arange 0 (maturity self) (1 / 4).

Definition simulate_gbm (self : TunnelOptionPricer) (t : list R) (g : rng)
  : list R * rng :=
  gbm_path (S_0 self) (mu self) (sigma self) t g.

(** One turn of [for i in S[1:len(S)-1]].  Every turn reads [K[0]] and
    [K[1]]: the chained comparison or the [elif] reaches [K[1]] whichever
    way [K[0] < i] goes. *)
Definition payoff_step (self : TunnelOptionPricer) (acc : Py.result R)
  (i : R) : Py.result R :=
  payoff <- acc;;
  k0 <- Py.getitem (K self) 0;;
  k1 <- Py.getitem (K self) 1;;
  if Rlt_dec k0 i then
    if Rlt_dec i k1 then Py.Ok (payoff + i / S_0 self * alpha self)
    else if Rgt_dec i k1 then Py.Ok (payoff + i / S_0 self * beta self)
    else Py.Ok 0
  else if Rgt_dec i k1 then Py.Ok (payoff + i / S_0 self * beta self)
  else Py.Ok 0.

(** [return payoff + np.max([S[-1]/self.S_0 - self.K[1], 0])]. *)
Definition payoff (self : TunnelOptionPricer) (S : list R) : Py.result R :=
  payoff <-
    fold_left (payoff_step self) (Py.slice 1 (length S - 1) S) (Py.Ok 0);;
  final <- Py.last_item S;;
  k1 <- Py.getitem (K self) 1;;
  Py.Ok (payoff + Rmax (final / S_0 self - k1) 0).

(** The loop [for _ in range(self.Ns)] of [simulate_monte_carlo]. *)
Fixpoint trials (self : TunnelOptionPricer) (t : list R) (n : nat)
  (P : list R) (g : rng) : Py.result (list R) * rng :=
  match n with
  | O => (Py.Ok P, g)
  | S n' =>
      let (path, g') := simulate_gbm self t g in
      match payoff self path with
      | Py.Ok p => trials self t n' (P ++ [p]) g'
      | Py.Raise e => (Py.Raise e, g')
      end
  end.

Definition simulate_monte_carlo (self : TunnelOptionPricer) (g : rng)
  : Py.result (list R) * rng :=
  let t := generate_t self in
  trials self t (Z.to_nat (Ns self)) [] g.

Definition convergence_mc (norm_ppf : R -> R) (self : TunnelOptionPricer)
  (P : list R) : list R * list R * list R :=
  convergence norm_ppf (IC self) P.

(** [generate_convergence_curve] without the drawing. *)
Definition generate_convergence_curve (norm_ppf : R -> R)
  (self : TunnelOptionPricer) (g : rng) : Py.result (list R * (R * R)) :=
  P <- fst (simulate_monte_carlo self g);;
  report <- final_report (convergence_mc norm_ppf self P);;
  Py.Ok (P, report).

End Tunnel.

(** ** Napoleon: [NapoleonOptionPricer] of [pricer_napoleon.py] *)

Module Napoleon.

Record NapoleonOptionPricer : Type := {
  initial_stock_price : R;
  volatility : R;
  drift : R;
  maturity : R;
  confidence_interval : R;
  num_simulations : Z;
  fixed_coupon : R;
  floor : R
}.

(** [list(range(int(self.maturity * 252)))]. *)
Definition generate_t (self : NapoleonOptionPricer) : list R :=
  map INR (Py.range 0 (Z.to_nat (Int_part (maturity self * 252)))).

Definition simulate_geometric_brownian_motion (self : NapoleonOptionPricer)
  (time_vector : list R) (g : rng) : list R * rng :=
  gbm_path (initial_stock_price self) (drift self) (volatility self)
    time_vector g.

(** [[stock_trajectory[j] / stock_trajectory[j - 1] - 1
      for j in range(1, len(stock_trajectory))]]. *)
Definition monthly_returns (stock_trajectory : list R) : list R :=
  map (fun j => nth j stock_trajectory 0 / nth (j - 1) stock_trajectory 0 - 1)
      (Py.range 1 (length stock_trajectory)).

(** [[monthly_returns[i:i+12]
      for i in range(0, len(monthly_returns), 12)]]. *)
Definition monthly_returns_grouped (returns : list R) : list (list R) :=
  map (fun i => Py.slice i (i + 12) returns)
      (Py.range_step (length returns) 12).

(** One turn of [for returns_group in monthly_returns_grouped]. *)
Definition group_turn (self : NapoleonOptionPricer) (payoff : R)
  (returns_group : list R) : R :=
  let min_monthly_return := Py.min_or 0 returns_group in
  payoff + Rmax (fixed_coupon self + min_monthly_return) (floor self).

(** One turn of [for i in range(int(len(stock_trajectory)/12))]: the loop
    [for j in range(12)] binds the two lists anew at each of its turns (the
    comprehensions have their own [i] and [j]), then every group is added to
    [payoff]. *)
Definition block_turn (self : NapoleonOptionPricer)
  (stock_trajectory : list R) (payoff : R) (i : nat) : R :=
  let grouped :=
    fold_left
      (fun _ (j : nat) =>
         monthly_returns_grouped (monthly_returns stock_trajectory))
      (Py.range 0 12) [] in
  fold_left (group_turn self) grouped payoff.

Definition calculate_option_payoff (self : NapoleonOptionPricer)
  (stock_trajectory : list R) : R :=
  fold_left (block_turn self stock_trajectory)
    (Py.range 0 (length stock_trajectory / 12)) 0.

(** The loop [for _ in range(self.num_simulations)] of
    [simulate_monte_carlo], [n] trials left. *)
Fixpoint trials (self : NapoleonOptionPricer) (time_vector : list R)
  (n : nat) (payoff_list : list R) (g : rng) : list R * rng :=
  match n with
  | O => (payoff_list, g)
  | S n' =>
      let (stock_trajectory, g') :=
        simulate_geometric_brownian_motion self time_vector g in
      trials self time_vector n'
        (payoff_list ++ [calculate_option_payoff self stock_trajectory]) g'
  end.

Definition simulate_monte_carlo (self : NapoleonOptionPricer) (g : rng)
  : list R * rng :=
  let time_vector := generate_t self in
  trials self time_vector (Z.to_nat (num_simulations self)) [] g.

Definition monte_carlo_convergence (norm_ppf : R -> R)
  (self : NapoleonOptionPricer) (payoff_list : list R)
  : list R * list R * list R :=
  convergence norm_ppf (confidence_interval self) payoff_list.

(** [generate_convergence_curve] without the drawing. *)
Definition generate_convergence_curve (norm_ppf : R -> R)
  (self : NapoleonOptionPricer) (g : rng) : Py.result (R * R) :=
  let (payoff_list, _) := simulate_monte_carlo self g in
  final_report (monte_carlo_convergence norm_ppf self payoff_list).

End Napoleon.

(** ** Himalaya: [HimalayaOptionPricer] of [pricer_himalaya.py] *)

Module Himalaya.

(** [strike_price] is documented as a float; the form passes the list
    [[float(x) for x in entry.split(',')]]. *)
Inductive strike : Type :=
| Scalar (k : R)
| Vector (ks : list R).

Record HimalayaOptionPricer : Type := {
  initial_asset_values : list R;
  strike_price : strike;
  volatility : R;
  mean : R;
  num_simulations : Z;
  num_assets : Z;
  confidence_level : R
}.

(** [[i for i in range(self.num_assets)]]. *)
Definition generate_time_vector (self : HimalayaOptionPricer) : list R :=
  map INR (Py.range 0 (Z.to_nat (num_assets self))).

(** One turn of [for j in range(1, len(time_vector))]. *)
Definition log_step (self : HimalayaOptionPricer) (time_vector : list R)
  (st : list R * rng) (j : nat) : list R * rng :=
  let (trajectory, g) := st in
  let dt := nth j time_vector 0 - nth (j - 1) time_vector 0 in
  let (z, g') := normal g in
  (trajectory ++
     [last trajectory 0 + (mean self - volatility self ^ 2 / 2) * dt
      + volatility self * sqrt dt * z],
   g').

(** One turn of [for i in range(len(self.initial_asset_values))]. *)
Definition asset_turn (self : HimalayaOptionPricer) (time_vector : list R)
  (st : list (list R) * rng) (i : nat) : list (list R) * rng :=
  let (trajectories, g) := st in
  let (trajectory, g') :=
    fold_left (log_step self time_vector) (Py.range 1 (length time_vector))
      ([ln (nth i (initial_asset_values self) 0)], g) in
  (trajectories ++ [trajectory], g').

Definition simulate_trajectory (self : HimalayaOptionPricer)
  (time_vector : list R) (g : rng) : list (list R) * rng :=
  fold_left (asset_turn self time_vector)
    (Py.range 0 (length (initial_asset_values self))) ([], g).

(** [np.max(x, 0)]: the second argument of [np.max] is the axis.  Along
    axis 0 a scalar is returned as it is, and a one-dimensional array gives
    its greatest element. *)
Definition max_axis0 (max_payoff : R) (k : strike) : Py.result R :=
  match k with
  | Scalar k => Py.Ok (max_payoff - k)
  | Vector ks => Np.max (map (fun k => max_payoff - k) ks)
  end.

(** [payoffs = [np.exp(trajectory[j]) for j in range(len(trajectory))]],
    [max_payoff = np.max(payoffs)]: the greatest entry of the array of all
    series, which have one length, that of the grid;
    [return np.max(max_payoff - self.strike_price, 0)]. *)
Definition calculate_payoff (self : HimalayaOptionPricer)
  (trajectory : list (list R)) : Py.result R :=
  let payoffs :=
    map (fun j => map exp (nth j trajectory []))
        (Py.range 0 (length trajectory)) in
  max_payoff <- Np.max (concat payoffs);;
  max_axis0 max_payoff (strike_price self).

(** The loop [for _ in range(self.num_simulations)] of
    [simulate_monte_carlo], [n] trials left. *)
Fixpoint trials (self : HimalayaOptionPricer) (time_vector : list R)
  (n : nat) (payoffs : list R) (g : rng) : Py.result (list R) * rng :=
  match n with
  | O => (Py.Ok payoffs, g)
  | S n' =>
      let (trajectories, g') := simulate_trajectory self time_vector g in
      match calculate_payoff self trajectories with
      | Py.Ok p => trials self time_vector n' (payoffs ++ [p]) g'
      | Py.Raise e => (Py.Raise e, g')
      end
  end.

Definition simulate_monte_carlo (self : HimalayaOptionPricer) (g : rng)
  : Py.result (list R) * rng :=
  let time_vector := generate_time_vector self in
  trials self time_vector (Z.to_nat (num_simulations self)) [] g.

Definition monte_carlo_convergence (norm_ppf : R -> R)
  (self : HimalayaOptionPricer) (payoffs : list R)
  : list R * list R * list R :=
  convergence norm_ppf (confidence_level self) payoffs.

(** [generate_convergence_curve] without the drawing. *)
Definition generate_convergence_curve (norm_ppf : R -> R)
  (self : HimalayaOptionPricer) (g : rng) : Py.result (list R * (R * R)) :=
  payoffs <- fst (simulate_monte_carlo self g);;
  report <- final_report (monte_carlo_convergence norm_ppf self payoffs);;
  Py.Ok (payoffs, report).

End Himalaya.

(** ** The lookups of [RAROC_final.py]

    [creditWarranties] and [countryData] read the two tables the file
    writes out; [rarocCalcul] also reads the default-probability tables of a
    workbook and rounds binary64 values, and is not embedded. *)

Module Raroc.

Import String.
Local Open Scope string_scope.

Inductive exn : Type := TypeError | UnboundLocalError.

Inductive result (A : Type) : Type :=
| Return (a : A)
| Raise (e : exn).

Arguments Return {A} a.
Arguments Raise {A} e.

Record CustomerMaturity : Type := {
  warranties : string;
  warrantAmount : Z
}.

Record CustomerData : Type := {
  autorization : R;
  utilization : R;
  maturity : R;
  rating : string;
  country : string
}.

(** [[name, LGD, rating, transfer rate]] for each country. *)
Definition countryList : list (string * R * string * R) :=
  [("France", 60 / 100, "Ba1", 35 / 100);
   ("Etats-Unis", 4 / 10, "Baa1", 2 / 10);
   ("Autres", 65 / 100, "B1", 5 / 10)].

(** The dict of haircuts, in the order it is written. *)
Definition warrantiesTab : list (string * R) :=
  [("Immobilier", 20 / 100); ("Titres", 3 / 10); ("Véhicule", 4 / 10);
   ("Autres", 5 / 10)].

(** [d.get(key)]: [None] for a key that is not in the dict. *)
Fixpoint get (d : list (string * R)) (key : string) : option R :=
  match d with
  | [] => None
  | (k, v) :: d' => if String.eqb k key then Some v else get d' key
  end.

(** [value = int(warrantAmount) * (1 - haircut)]: with [haircut = None] the
    subtraction raises [TypeError]. *)
Definition creditWarranties (customerMaturity : CustomerMaturity)
  : result R :=
  match get warrantiesTab (warranties customerMaturity) with
  | Some haircut => Return (IZR (warrantAmount customerMaturity) * (1 - haircut))
  | None => Raise TypeError
  end.

(** One turn of [for i in countryList]: the three locals are bound when the
    name matches. *)
Definition country_turn (customerData : CustomerData)
  (locals : option (R * string * R)) (i : string * R * string * R)
  : option (R * string * R) :=
  let '(name, lgd, countryRating, transferRate) := i in
  if String.eqb name (country customerData)
  then Some (lgd, countryRating, transferRate)
  else locals.

(** [return lgdCountry, countryRating, transferRate]: [UnboundLocalError]
    when no turn bound them. *)
Definition countryData (customerData : CustomerData)
  : result (R * string * R) :=
  match fold_left (country_turn customerData) countryList None with
  | Some row => Return row
  | None => Raise UnboundLocalError
  end.

End Raroc.

(** * Specification-side definitions

    The quantities the statements below compare the code with, and the
    inputs they are evaluated on. *)

(** ** The convergence series, entry by entry *)

(** The entries the loop of the estimator appends at its turn [i]
    (0-based), as functions of [i]. *)
Definition mean_at (payoffs : list R) (i : nat) : R :=
  Np.mean (firstn (i + 1) payoffs).

Definition std_at (payoffs : list R) (i : nat) : R :=
  Np.std (firstn (i + 1) payoffs).

Definition lower_at (a : R) (payoffs : list R) (i : nat) : R :=
  if (0 <? i)%nat
  then mean_at payoffs i - a * std_at payoffs i / sqrt (INR i)
  else mean_at payoffs i.

Definition upper_at (a : R) (payoffs : list R) (i : nat) : R :=
  if (0 <? i)%nat
  then mean_at payoffs i + a * std_at payoffs i / sqrt (INR i)
  else mean_at payoffs i.

(** The standard-normal quantile function, by the two facts the bounds
    depend on: it vanishes at 1/2 and increases strictly on (0,1). *)
Definition std_normal_quantile (ppf : R -> R) : Prop :=
  ppf (1 / 2) = 0
  /\ forall p q : R, 0 < p -> p < q -> q < 1 -> ppf p < ppf q.

(** A function with the two facts of [std_normal_quantile]. *)
Definition centred (p : R) : R := p - 1 / 2.

(** The sample standard deviation in the specification's words: the
    squared deviations from the mean are divided by [n - 1]. *)
Definition sample_std (l : list R) : R :=
  sqrt (Np.sum (map (fun x => (x - Np.mean l) ^ 2) l)
        / (INR (length l) - 1)).

(** ** The payoffs in the specification's words *)

(** What one block of returns adds: [max(fixedCoupon + min(block), floor)]. *)
Definition block_contribution (self : Napoleon.NapoleonOptionPricer)
  (block : list R) : R :=
  Rmax (Napoleon.fixed_coupon self + Py.min_or 0 block) (Napoleon.floor self).

(** The payoff in the specification's words: every block of 12 consecutive
    returns of the trajectory contributes once.  The returns and their
    blocks are those of the code. *)
Definition each_block_once (self : Napoleon.NapoleonOptionPricer)
  (stock_trajectory : list R) : R :=
  Np.sum (map (block_contribution self)
            (Napoleon.monthly_returns_grouped
               (Napoleon.monthly_returns stock_trajectory))).

(** The payoff in the specification's words: the best terminal value of the
    series, less the strike, floored at zero. *)
Definition best_terminal_call (k : R) (trajectory : list (list R))
  : Py.result R :=
  best <- Np.max (map (fun series => exp (last series 0)) trajectory);;
  Py.Ok (Rmax (best - k) 0).

(** The payoff in the specification's words: the mean of the last 60
    observations over the mean of the first 60, less the strike, floored at
    zero. *)
Definition last_60_over_first_60 (strike : R) (stock_prices : list R) : R :=
  Rmax (Np.mean (skipn (length stock_prices - 60) stock_prices)
        / Np.mean (firstn 60 stock_prices) - strike) 0.

(** ** Pricers and trajectories the statements are evaluated on *)

(** A Vanilla pricer at the confidence level [c]. *)
Definition vanilla_level (c : R) : Vanilla.McSimul :=
  {| Vanilla.initial_stock_price := 100; Vanilla.strike_price := 1;
     Vanilla.volatility := 1 / 5; Vanilla.drift := 0;
     Vanilla.maturity := 1; Vanilla.confidence_interval := c;
     Vanilla.num_simulations := 2 |}.

(** Scenario A of the specification. *)
Definition scenario_A : Vanilla.McSimul :=
  {| Vanilla.initial_stock_price := 100; Vanilla.strike_price := 0;
     Vanilla.volatility := 0; Vanilla.drift := 0; Vanilla.maturity := 1;
     Vanilla.confidence_interval := 19 / 20;
     Vanilla.num_simulations := 10 |}.

(** 120 observations, all 1 but the first of the late window, [S[60]]. *)
Definition spike_at_60 : list R := repeat 1 60 ++ [61] ++ repeat 1 59.

(** A Tunnel pricer with both rates at 0. *)
Definition tunnel_flat : Tunnel.TunnelOptionPricer :=
  {| Tunnel.S_0 := 100; Tunnel.K := [90; 110]; Tunnel.sigma := 0;
     Tunnel.mu := 0; Tunnel.Ns := 1; Tunnel.IC := 1 / 2;
     Tunnel.alpha := 0; Tunnel.beta := 0; Tunnel.maturity := 1 |}.

(** A Tunnel pricer with positive rates. *)
Definition tunnel_coupons : Tunnel.TunnelOptionPricer :=
  {| Tunnel.S_0 := 100; Tunnel.K := [90; 110]; Tunnel.sigma := 1 / 5;
     Tunnel.mu := 0; Tunnel.Ns := 1; Tunnel.IC := 9 / 10;
     Tunnel.alpha := 1 / 100; Tunnel.beta := 1 / 50; Tunnel.maturity := 1 |}.

(** Lower strike 110 above upper strike 90; flat paths. *)
Definition tunnel_crossed : Tunnel.TunnelOptionPricer :=
  {| Tunnel.S_0 := 100; Tunnel.K := [110; 90]; Tunnel.sigma := 0;
     Tunnel.mu := 0; Tunnel.Ns := 2; Tunnel.IC := 9 / 10;
     Tunnel.alpha := 0; Tunnel.beta := 0; Tunnel.maturity := 1 |}.

(** Coupon 1, floor 0, and a flat path of 25 prices: S0 = 1, no volatility,
    no drift, maturity 0.1 (25.2 trading days). *)
Definition napoleon_coupon : Napoleon.NapoleonOptionPricer :=
  {| Napoleon.initial_stock_price := 1; Napoleon.volatility := 0;
     Napoleon.drift := 0; Napoleon.maturity := 1 / 10;
     Napoleon.confidence_interval := 9 / 10; Napoleon.num_simulations := 1;
     Napoleon.fixed_coupon := 1; Napoleon.floor := 0 |}.

(** Coupon 0 and the negative floor -1. *)
Definition napoleon_deep_floor : Napoleon.NapoleonOptionPricer :=
  {| Napoleon.initial_stock_price := 2; Napoleon.volatility := 1 / 5;
     Napoleon.drift := 0; Napoleon.maturity := 1 / 20;
     Napoleon.confidence_interval := 9 / 10; Napoleon.num_simulations := 1;
     Napoleon.fixed_coupon := 0; Napoleon.floor := -1 |}.

(** One asset of initial value [S0] on the one-point grid, strike [k] as the
    form passes it. *)
Definition himalaya_one (S0 k : R) : Himalaya.HimalayaOptionPricer :=
  {| Himalaya.initial_asset_values := [S0];
     Himalaya.strike_price := Himalaya.Vector [k];
     Himalaya.volatility := 1 / 5; Himalaya.mean := 0;
     Himalaya.num_simulations := 1; Himalaya.num_assets := 1;
     Himalaya.confidence_level := 9 / 10 |}.

(** One asset of initial value [e] on the two-point grid, strike 0. *)
Definition himalaya_two_steps : Himalaya.HimalayaOptionPricer :=
  {| Himalaya.initial_asset_values := [exp 1];
     Himalaya.strike_price := Himalaya.Vector [0];
     Himalaya.volatility := 1 / 5; Himalaya.mean := 0;
     Himalaya.num_simulations := 1; Himalaya.num_assets := 2;
     Himalaya.confidence_level := 9 / 10 |}.

(** One asset of initial value 1 on the one-point grid, strikes 3 and 2. *)
Definition himalaya_two_strikes : Himalaya.HimalayaOptionPricer :=
  {| Himalaya.initial_asset_values := [1];
     Himalaya.strike_price := Himalaya.Vector [3; 2];
     Himalaya.volatility := 1 / 5; Himalaya.mean := 0;
     Himalaya.num_simulations := 1; Himalaya.num_assets := 1;
     Himalaya.confidence_level := 9 / 10 |}.

(** A Tunnel pricer given one strike only. *)
Definition tunnel_one_strike : Tunnel.TunnelOptionPricer :=
  {| Tunnel.S_0 := 100; Tunnel.K := [110]; Tunnel.sigma := 1 / 5;
     Tunnel.mu := 0; Tunnel.Ns := 1; Tunnel.IC := 9 / 10;
     Tunnel.alpha := 1 / 100; Tunnel.beta := 1 / 50; Tunnel.maturity := 1 |}.

(** ** The path and the generator, step by step *)

(** The generator after [k] draws. *)
Fixpoint advance (k : nat) (g : rng) : rng :=
  match k with
  | O => g
  | S k' => fun n => advance k' g (S n)
  end.

(** The price at grid index [i] as the recurrence of the log-Euler step
    gives it: the draw [g k] moves the price from index [k] to [k + 1]. *)
Fixpoint gbm_price (S_0 mu sigma : R) (t : list R) (g : rng) (i : nat) : R :=
  match i with
  | O => S_0
  | S k =>
      gbm_price S_0 mu sigma t g k
      * exp ((mu - sigma ^ 2 / 2) * (nth (S k) t 0 - nth k t 0)
             + sigma * sqrt (nth (S k) t 0 - nth k t 0) * g k)
  end.

(** The log-price at grid index [i] as the recurrence of the Himalaya step
    gives it. *)
Fixpoint log_price (x_0 mu sigma : R) (t : list R) (g : rng) (i : nat) : R :=
  match i with
  | O => x_0
  | S k =>
      log_price x_0 mu sigma t g k
      + (mu - sigma ^ 2 / 2) * (nth (S k) t 0 - nth k t 0)
      + sigma * sqrt (nth (S k) t 0 - nth k t 0) * g k
  end.

(** The series of the asset of index [j], the generator standing at
    [g]. *)
Definition series_from (self : Himalaya.HimalayaOptionPricer) (t : list R)
  (g : rng) (j : nat) : list R :=
  map (log_price (ln (nth j (Himalaya.initial_asset_values self) 0))
         (Himalaya.mean self) (Himalaya.volatility self) t g)
      (seq 0 (Nat.max (length t) 1)).

(** ** Pricers that differ in one field *)

(** [self] with another initial price. *)
Definition vanilla_with_price (self : Vanilla.McSimul) (S0 : R)
  : Vanilla.McSimul :=
  {| Vanilla.initial_stock_price := S0;
     Vanilla.strike_price := Vanilla.strike_price self;
     Vanilla.volatility := Vanilla.volatility self;
     Vanilla.drift := Vanilla.drift self;
     Vanilla.maturity := Vanilla.maturity self;
     Vanilla.confidence_interval := Vanilla.confidence_interval self;
     Vanilla.num_simulations := Vanilla.num_simulations self |}.

(** [self] with another initial price. *)
Definition napoleon_with_price (self : Napoleon.NapoleonOptionPricer)
  (S0 : R) : Napoleon.NapoleonOptionPricer :=
  {| Napoleon.initial_stock_price := S0;
     Napoleon.volatility := Napoleon.volatility self;
     Napoleon.drift := Napoleon.drift self;
     Napoleon.maturity := Napoleon.maturity self;
     Napoleon.confidence_interval := Napoleon.confidence_interval self;
     Napoleon.num_simulations := Napoleon.num_simulations self;
     Napoleon.fixed_coupon := Napoleon.fixed_coupon self;
     Napoleon.floor := Napoleon.floor self |}.

(** [self] with another first coupon rate. *)
Definition tunnel_with_alpha (self : Tunnel.TunnelOptionPricer) (a : R)
  : Tunnel.TunnelOptionPricer :=
  {| Tunnel.S_0 := Tunnel.S_0 self; Tunnel.K := Tunnel.K self;
     Tunnel.sigma := Tunnel.sigma self; Tunnel.mu := Tunnel.mu self;
     Tunnel.Ns := Tunnel.Ns self; Tunnel.IC := Tunnel.IC self;
     Tunnel.alpha := a; Tunnel.beta := Tunnel.beta self;
     Tunnel.maturity := Tunnel.maturity self |}.

(** ** Evaluation of [min] and [max] on numerals *)

Ltac eval_min_max :=
  repeat match goal with
         | |- context [Rmin ?x ?y] =>
             first [ rewrite (Rmin_left x y) by lra
                   | rewrite (Rmin_right x y) by lra ]
         | |- context [Rmax ?x ?y] =>
             first [ rewrite (Rmax_left x y) by lra
                   | rewrite (Rmax_right x y) by lra ]
         end.

(** * Properties *)

(** ** Lists built by appending *)

Lemma last_item_nonempty {A : Type} (l : list A) (d : A) :
  l <> [] -> Py.last_item l = Py.Ok (last l d).
Proof.
  intros Hl. destruct (exists_last Hl) as [l' [a ->]].
  unfold Py.last_item. rewrite rev_app_distr, last_last. reflexivity.
Qed.

Lemma nth_head_app {A : Type} (l l' : list A) (d : A) :
  l <> [] -> nth 0 (l ++ l') d = nth 0 l d.
Proof. destruct l; [congruence | reflexivity]. Qed.

(** ** Constant lists *)

Lemma sum_repeat (x : R) (n : nat) : Np.sum (repeat x n) = INR n * x.
Proof.
  induction n as [|n IH]; [cbn; ring|].
  rewrite S_INR. unfold Np.sum in *. cbn [repeat fold_right]. rewrite IH. ring.
Qed.

Lemma mean_repeat (x : R) (n : nat) : Np.mean (repeat x (S n)) = x.
Proof.
  unfold Np.mean. rewrite sum_repeat, repeat_length. field.
  apply not_0_INR. discriminate.
Qed.

Lemma std_repeat (x : R) (n : nat) : Np.std (repeat x (S n)) = 0.
Proof.
  unfold Np.std. rewrite mean_repeat.
  replace (map (fun y => (y - x) ^ 2) (repeat x (S n)))
    with (repeat 0 (S n)).
  - rewrite mean_repeat. apply sqrt_0.
  - generalize (S n). intros k. induction k as [|k IH]; [reflexivity|].
    cbn [repeat map]. rewrite <- IH. f_equal. ring.
Qed.

Lemma firstn_repeat_le {A : Type} (x : A) (k n : nat) :
  (k <= n)%nat -> firstn k (repeat x n) = repeat x k.
Proof.
  revert n. induction k as [|k IH]; intros n Hk; [reflexivity|].
  destruct n as [|n]; [lia|]. cbn [repeat firstn]. rewrite IH by lia.
  reflexivity.
Qed.

Lemma skipn_repeat_sub {A : Type} (x : A) (k n : nat) :
  skipn k (repeat x n) = repeat x (n - k).
Proof.
  revert n. induction k as [|k IH]; intros n.
  - rewrite Nat.sub_0_r. reflexivity.
  - destruct n as [|n]; [reflexivity|]. cbn [repeat skipn Nat.sub]. apply IH.
Qed.

Lemma last_repeat (x d : R) (n : nat) : last (repeat x (S n)) d = x.
Proof.
  induction n as [|n IH]; [reflexivity|].
  change (repeat x (S (S n))) with (x :: repeat x (S n)).
  cbn [last]. cbn [repeat] in *. exact IH.
Qed.

Lemma repeat_snoc {A : Type} (x : A) (n : nat) :
  repeat x n ++ [x] = repeat x (S n).
Proof.
  induction n as [|n IH]; [reflexivity|].
  cbn [repeat app]. rewrite IH. reflexivity.
Qed.

Lemma map_constant {A : Type} (f : A -> R) (x : R) (l : list A) :
  (forall i : A, In i l -> f i = x) -> map f l = repeat x (length l).
Proof.
  induction l as [|i l IH]; intros H; [reflexivity|].
  cbn [map length repeat]. rewrite (H i) by (left; reflexivity).
  rewrite IH; [reflexivity|]. intros j Hj. apply H. right. exact Hj.
Qed.

(** ** The path simulator *)

Section GBMFacts.

Variables S_0 mu sigma : R.

Lemma gbm_fold_shape (t : list R) (steps : list nat) :
  forall (S : list R) (g : rng),
    S <> [] ->
    length (fst (fold_left (gbm_step mu sigma t) steps (S, g)))
    = (length S + length steps)%nat
    /\ nth 0 (fst (fold_left (gbm_step mu sigma t) steps (S, g))) 0
       = nth 0 S 0.
Proof.
  induction steps as [|i steps IH]; intros S g HS; cbn [fold_left fst length].
  - split; [lia | reflexivity].
  - unfold gbm_step at 2 4. cbn [normal].
    set (x := last S 0 * _).
    destruct (IH (S ++ [x]) (fun n => g (Datatypes.S n))) as [Hlen Hhd].
    { destruct S; discriminate. }
    split.
    + rewrite Hlen, length_app. cbn [length]. lia.
    + rewrite Hhd. apply nth_head_app, HS.
Qed.

Lemma gbm_path_shape (t : list R) (g : rng) :
  length (fst (gbm_path S_0 mu sigma t g)) = Nat.max (length t) 1
  /\ nth 0 (fst (gbm_path S_0 mu sigma t g)) 0 = S_0.
Proof.
  unfold gbm_path.
  destruct (gbm_fold_shape t (Py.range 1 (length t)) [S_0] g) as [Hlen Hhd].
  { discriminate. }
  split; [|exact Hhd].
  rewrite Hlen. unfold Py.range. rewrite length_seq. cbn [length]. lia.
Qed.

End GBMFacts.

(** With no volatility and no drift the path stays at its first price. *)
Lemma gbm_still (x : R) (t : list R) (steps : list nat) :
  forall (k : nat) (g : rng),
    fst (fold_left (gbm_step 0 0 t) steps (repeat x (S k), g))
    = repeat x (S k + length steps).
Proof.
  induction steps as [|i steps IH]; intros k g; cbn [fold_left length].
  - rewrite Nat.add_0_r. reflexivity.
  - unfold gbm_step at 2. cbn [normal]. rewrite last_repeat.
    replace ((0 - 0 ^ 2 / 2) * (nth i t 0 - nth (i - 1) t 0)
             + 0 * sqrt (nth i t 0 - nth (i - 1) t 0) * g 0%nat)
      with 0 by (cbn; field).
    rewrite exp_0, Rmult_1_r, repeat_snoc, IH. f_equal. lia.
Qed.

Lemma gbm_path_still (x : R) (t : list R) (g : rng) :
  fst (gbm_path x 0 0 t g) = repeat x (Nat.max (length t) 1).
Proof.
  unfold gbm_path. change [x] with (repeat x 1). rewrite gbm_still.
  unfold Py.range. rewrite length_seq. f_equal. lia.
Qed.

(** C10 -- For every time grid, the empty one included, [simulate_gbm]
    (Vanilla) and [simulate_geometric_brownian_motion] (Napoleon) return a
    path of [max(len(grid), 1)] prices whose first element is the initial
    price: the grid's length when the grid is not empty, and the one-element
    path [[S0]] for a grid of zero or one points. *)
Theorem path_length_and_head :
  forall (v : Vanilla.McSimul) (n : Napoleon.NapoleonOptionPricer)
         (time_vector : list R) (t0 : R) (g : rng),
    let pv := fst (Vanilla.simulate_gbm v time_vector g) in
    let pn :=
      fst (Napoleon.simulate_geometric_brownian_motion n time_vector g) in
    (length pv = Nat.max (length time_vector) 1
     /\ nth 0 pv 0 = Vanilla.initial_stock_price v)
    /\ (length pn = Nat.max (length time_vector) 1
        /\ nth 0 pn 0 = Napoleon.initial_stock_price n)
    /\ (fst (Vanilla.simulate_gbm v [] g) = [Vanilla.initial_stock_price v]
        /\ fst (Vanilla.simulate_gbm v [t0] g)
           = [Vanilla.initial_stock_price v])
    /\ (fst (Napoleon.simulate_geometric_brownian_motion n [] g)
        = [Napoleon.initial_stock_price n]
        /\ fst (Napoleon.simulate_geometric_brownian_motion n [t0] g)
           = [Napoleon.initial_stock_price n]).
Proof.
  intros v n t t0 g pv pn. repeat split; try apply gbm_path_shape.
Qed.

(** ** The Tunnel payoff *)

Lemma tunnel_walk_zero_rates (self : Tunnel.TunnelOptionPricer) (k0 k1 : R)
  (rest : list R) :
  Tunnel.alpha self = 0 -> Tunnel.beta self = 0 ->
  Tunnel.K self = k0 :: k1 :: rest ->
  forall interior : list R,
    fold_left (Tunnel.payoff_step self) interior (Py.Ok 0) = Py.Ok 0.
Proof.
  intros Ha Hb HK. induction interior as [|i interior IH]; [reflexivity|].
  cbn [fold_left]. unfold Tunnel.payoff_step at 2.
  rewrite HK, Ha, Hb. cbn [Py.bind Py.getitem nth_error].
  replace (0 + i / Tunnel.S_0 self * 0) with 0 by ring.
  destruct (Rlt_dec k0 i), (Rlt_dec i k1), (Rgt_dec i k1); exact IH.
Qed.

(** C6 -- With [alpha = beta = 0] (and an initial price that is not 0) the
    Tunnel payoff of every trajectory is exactly
    [max(S_final/S0 - upperStrike, 0)], whatever the interior observations
    are: neither the corridor accumulation nor its reset contributes. *)
Theorem tunnel_zero_rates_terminal_call :
  forall (self : Tunnel.TunnelOptionPricer) (lowerStrike upperStrike : R)
         (S : list R),
    Tunnel.alpha self = 0 -> Tunnel.beta self = 0 ->
    Tunnel.K self = [lowerStrike; upperStrike] ->
    Tunnel.S_0 self <> 0 ->
    S <> [] ->
    Tunnel.payoff self S
    = Py.Ok (Rmax (last S 0 / Tunnel.S_0 self - upperStrike) 0).
Proof.
  intros self k0 k1 S Ha Hb HK _ HS. unfold Tunnel.payoff.
  rewrite (tunnel_walk_zero_rates self k0 k1 [] Ha Hb HK).
  rewrite (last_item_nonempty S 0 HS), HK.
  cbn [Py.bind Py.getitem nth_error]. f_equal. ring.
Qed.

Lemma tunnel_zero_rates_terminal_call_witness :
  Tunnel.payoff tunnel_flat [100; 50; 300; 120]
  = Py.Ok (Rmax (last [100; 50; 300; 120] 0 / 100 - 110) 0).
Proof.
  apply (tunnel_zero_rates_terminal_call tunnel_flat 90 110);
    [reflexivity | reflexivity | reflexivity | cbn; lra | discriminate].
Defined.

(** ** The convergence estimator *)

Section ConvergenceFacts.

Variable a : R.
Variable payoffs : list R.

Lemma convergence_fold (n : nat) :
  forall (k : nat) (s : series),
    fold_left (convergence_step a payoffs) (seq k n) s
    = {| moving_average := moving_average s ++ map (mean_at payoffs) (seq k n);
         standard_deviation :=
           standard_deviation s ++ map (std_at payoffs) (seq k n);
         lower_bound := lower_bound s ++ map (lower_at a payoffs) (seq k n);
         upper_bound := upper_bound s ++ map (upper_at a payoffs) (seq k n) |}.
Proof.
  induction n as [|n IH]; intros k s; cbn [seq fold_left map].
  - rewrite !app_nil_r. destruct s; reflexivity.
  - rewrite IH. unfold convergence_step.
    cbn [moving_average standard_deviation lower_bound upper_bound].
    rewrite !last_last, <- !app_assoc. reflexivity.
Qed.

Lemma convergence_loop_maps :
  convergence_loop a payoffs
  = {| moving_average := map (mean_at payoffs) (seq 0 (length payoffs));
       standard_deviation := map (std_at payoffs) (seq 0 (length payoffs));
       lower_bound := map (lower_at a payoffs) (seq 0 (length payoffs));
       upper_bound := map (upper_at a payoffs) (seq 0 (length payoffs)) |}.
Proof.
  unfold convergence_loop, Py.range. rewrite Nat.sub_0_r.
  apply convergence_fold.
Qed.

Lemma nth_map_seq (f : nat -> R) (n i : nat) :
  (i < n)%nat -> nth i (map f (seq 0 n)) 0 = f i.
Proof.
  intros Hi. rewrite (nth_indep _ 0 (f O)) by (rewrite length_map, length_seq; exact Hi).
  rewrite map_nth, seq_nth by exact Hi. reflexivity.
Qed.

End ConvergenceFacts.

Lemma std_nonneg (l : list R) : 0 <= Np.std l.
Proof. apply sqrt_pos. Qed.

Lemma sqrt_2_neq_1 : sqrt 2 <> 1.
Proof.
  intros H. assert (Hs : sqrt 2 * sqrt 2 = 2) by (apply sqrt_sqrt; lra).
  rewrite H in Hs. lra.
Qed.

Lemma mean_0_2 : Np.mean [0; 2] = 1.
Proof. unfold Np.mean, Np.sum. cbn. lra. Qed.

Lemma std_0_2 : Np.std [0; 2] = 1.
Proof.
  unfold Np.std. rewrite mean_0_2. unfold Np.mean, Np.sum. cbn.
  replace ((0 - 1) * ((0 - 1) * 1) + ((2 - 1) * ((2 - 1) * 1) + 0)) with 2
    by ring.
  replace (2 / (1 + 1)) with 1 by lra. apply sqrt_1.
Qed.

Lemma sample_std_0_2 : sample_std [0; 2] = sqrt 2.
Proof.
  unfold sample_std. rewrite mean_0_2. unfold Np.sum. cbn. f_equal. lra.
Qed.

Lemma centred_quantile : std_normal_quantile centred.
Proof. unfold std_normal_quantile, centred. split; intros; lra. Qed.

(** C7, as the code has it -- For a payoff sequence and a prefix length
    [1 <= i <= N], [perform_monte_carlo] returns the three series of the
    loop, each of length [N], with: [mean[i]] the arithmetic mean of
    [payoffs[1..i]]; [std[i]] the population standard deviation of
    [payoffs[1..i]] (NumPy's default, divisor [i], not [i - 1]);
    [lower[1] = upper[1] = mean[1]]; and for [i > 1],
    [lower[i] = mean[i] - z*std[i]/sqrt(i-1)] and
    [upper[i] = mean[i] + z*std[i]/sqrt(i-1)], where [z] is the quantile
    function taken at the configured confidence level itself. *)
Theorem convergence_series_population_std :
  forall (norm_ppf : R -> R) (self : Vanilla.McSimul) (payoffs : list R)
         (i : nat),
    0 < Vanilla.confidence_interval self < 1 ->
    (1 <= i <= length payoffs)%nat ->
    let z := norm_ppf (Vanilla.confidence_interval self) in
    let s := convergence_loop z payoffs in
    let prefix := firstn i payoffs in
    let m := Np.sum prefix / INR i in
    let sd := sqrt (Np.sum (map (fun x => (x - m) ^ 2) prefix) / INR i) in
    Vanilla.perform_monte_carlo norm_ppf self payoffs
    = (moving_average s, lower_bound s, upper_bound s)
    /\ length (moving_average s) = length payoffs
    /\ length (lower_bound s) = length payoffs
    /\ length (upper_bound s) = length payoffs
    /\ nth (i - 1) (moving_average s) 0 = m
    /\ nth (i - 1) (standard_deviation s) 0 = sd
    /\ nth (i - 1) (lower_bound s) 0
       = (if (i =? 1)%nat then m else m - z * sd / sqrt (INR (i - 1)))
    /\ nth (i - 1) (upper_bound s) 0
       = (if (i =? 1)%nat then m else m + z * sd / sqrt (INR (i - 1))).
Proof.
  intros norm_ppf self payoffs i _ Hi z s prefix m sd.
  assert (Hlen : length prefix = i).
  { subst prefix. rewrite length_firstn. lia. }
  assert (Hm : mean_at payoffs (i - 1) = m).
  { unfold mean_at, Np.mean. replace (i - 1 + 1)%nat with i by lia.
    fold prefix. rewrite Hlen. reflexivity. }
  assert (Hsd : std_at payoffs (i - 1) = sd).
  { unfold std_at, Np.std. replace (i - 1 + 1)%nat with i by lia.
    fold prefix. unfold Np.mean at 1. rewrite length_map.
    unfold Np.mean. rewrite Hlen. reflexivity. }
  split; [reflexivity|].
  subst s. rewrite convergence_loop_maps.
  cbn [moving_average standard_deviation lower_bound upper_bound].
  rewrite !length_map, !length_seq, !nth_map_seq by lia.
  repeat split; try assumption.
  - unfold lower_at. rewrite Hm, Hsd.
    destruct i as [|[|i]]; [lia | reflexivity | reflexivity].
  - unfold upper_at. rewrite Hm, Hsd.
    destruct i as [|[|i]]; [lia | reflexivity | reflexivity].
Qed.

Lemma convergence_series_population_std_witness :
  nth 1 (moving_average (convergence_loop (centred (3 / 4)) [0; 2])) 0
  = Np.sum [0; 2] / INR 2
  /\ nth 1 (lower_bound (convergence_loop (centred (3 / 4)) [0; 2])) 0
     = Np.sum [0; 2] / INR 2
       - centred (3 / 4)
         * sqrt (Np.sum (map (fun x => (x - Np.sum [0; 2] / INR 2) ^ 2)
                             [0; 2]) / INR 2)
         / sqrt (INR 1).
Proof.
  pose proof (convergence_series_population_std centred
                (vanilla_level (3 / 4)) [0; 2] 2) as H.
  cbn zeta in H. cbn [length Nat.eqb Nat.sub firstn] in H.
  destruct H as (_ & _ & _ & _ & Hm & _ & Hl & _); [cbn; lra | lia |].
  split; [exact Hm | exact Hl].
Defined.

(** C7, as stated, fails: on the payoffs [[0; 2]] the second entry of the
    standard-deviation series is 1, and the sample standard deviation of
    [[0; 2]] is [sqrt 2]; for every quantile [z <> 0] the second lower bound
    is not [mean - z * sample_std / sqrt 1]. *)
Lemma running_std_is_not_sample_std :
  nth 1 (standard_deviation (convergence_loop 1 [0; 2])) 0
  <> sample_std (firstn 2 [0; 2])
  /\ (forall z : R, z <> 0 ->
      nth 1 (lower_bound (convergence_loop z [0; 2])) 0
      <> Np.mean (firstn 2 [0; 2])
         - z * sample_std (firstn 2 [0; 2]) / sqrt (INR (2 - 1))).
Proof.
  cbn [firstn Nat.sub INR]. rewrite sample_std_0_2, mean_0_2, sqrt_1. split.
  - rewrite convergence_loop_maps. cbn [length seq map nth standard_deviation].
    unfold std_at. cbn [Nat.add firstn]. rewrite std_0_2.
    intros H. apply sqrt_2_neq_1. symmetry. exact H.
  - intros z Hz. rewrite convergence_loop_maps.
    cbn [length seq map nth lower_bound].
    unfold lower_at, mean_at, std_at. cbn [Nat.ltb Nat.leb Nat.add firstn INR].
    rewrite std_0_2, mean_0_2, sqrt_1. intros H.
    apply sqrt_2_neq_1. apply (Rmult_eq_reg_l z); [lra | exact Hz].
Qed.

(** C8, as the code has it -- For a confidence level in [1/2, 1) and every
    prefix length [i > 1], [lower[i] <= mean[i] <= upper[i]]: the quantile
    at such a level is not negative. *)
Theorem bounds_enclose_mean_from_half :
  forall (norm_ppf : R -> R) (self : Vanilla.McSimul) (payoffs : list R)
         (M lb ub : list R) (i : nat),
    std_normal_quantile norm_ppf ->
    1 / 2 <= Vanilla.confidence_interval self < 1 ->
    Vanilla.perform_monte_carlo norm_ppf self payoffs = (M, lb, ub) ->
    (1 < i <= length payoffs)%nat ->
    nth (i - 1) lb 0 <= nth (i - 1) M 0 <= nth (i - 1) ub 0.
Proof.
  intros norm_ppf self payoffs M lb ub i [Hhalf Hincr] Hc Hrun Hi.
  unfold Vanilla.perform_monte_carlo, convergence in Hrun.
  rewrite convergence_loop_maps in Hrun.
  cbn [moving_average lower_bound upper_bound] in Hrun.
  injection Hrun as <- <- <-.
  rewrite !nth_map_seq by lia.
  unfold lower_at, upper_at.
  replace (0 <? i - 1)%nat with true by (symmetry; apply Nat.ltb_lt; lia).
  set (z := norm_ppf (Vanilla.confidence_interval self)).
  assert (Hz : 0 <= z).
  { subst z. destruct (Req_dec (Vanilla.confidence_interval self) (1 / 2))
      as [-> | Hne].
    - rewrite Hhalf. lra.
    - rewrite <- Hhalf. left. apply Hincr; lra. }
  assert (Hsd : 0 <= std_at payoffs (i - 1)) by apply std_nonneg.
  assert (Hroot : 0 < sqrt (INR (i - 1))).
  { apply sqrt_lt_R0. apply lt_0_INR. lia. }
  assert (Hw : 0 <= z * std_at payoffs (i - 1) / sqrt (INR (i - 1))).
  { apply Rmult_le_pos; [apply Rmult_le_pos; assumption|].
    left. apply Rinv_0_lt_compat, Hroot. }
  lra.
Qed.

Lemma bounds_enclose_mean_from_half_witness :
  std_normal_quantile centred
  /\ nth 1 (snd (fst (Vanilla.perform_monte_carlo centred
                        (vanilla_level (3 / 4)) [0; 2]))) 0
     <= nth 1 (fst (fst (Vanilla.perform_monte_carlo centred
                           (vanilla_level (3 / 4)) [0; 2]))) 0
     <= nth 1 (snd (Vanilla.perform_monte_carlo centred
                      (vanilla_level (3 / 4)) [0; 2])) 0.
Proof.
  split; [exact centred_quantile|].
  apply (bounds_enclose_mean_from_half centred (vanilla_level (3 / 4))
           [0; 2] _ _ _ 2).
  - exact centred_quantile.
  - cbn. lra.
  - reflexivity.
  - cbn. lia.
Defined.

(** C8, as stated, fails: at the confidence level 1/4, which lies in (0,1),
    the quantile is negative, and on the payoffs [[0; 2]] the second lower
    bound is above the second mean, which is above the second upper
    bound. *)
Lemma bounds_cross_below_half :
  0 < Vanilla.confidence_interval (vanilla_level (1 / 4)) < 1
  /\ (forall norm_ppf : R -> R,
      std_normal_quantile norm_ppf ->
      let '(M, lb, ub) :=
        Vanilla.perform_monte_carlo norm_ppf (vanilla_level (1 / 4)) [0; 2] in
      nth 1 ub 0 < nth 1 M 0 < nth 1 lb 0).
Proof.
  split; [cbn; lra|].
  intros norm_ppf [Hhalf Hincr].
  unfold Vanilla.perform_monte_carlo, convergence.
  rewrite convergence_loop_maps.
  cbn [moving_average lower_bound upper_bound length seq map nth
       Vanilla.confidence_interval vanilla_level].
  unfold lower_at, upper_at, mean_at, std_at.
  cbn [Nat.ltb Nat.leb Nat.add firstn INR].
  rewrite std_0_2, mean_0_2, sqrt_1.
  assert (Hz : norm_ppf (1 / 4) < 0).
  { rewrite <- Hhalf. apply Hincr; lra. }
  lra.
Qed.

(** ** The Napoleon payoff *)

Lemma group_turns_sum (self : Napoleon.NapoleonOptionPricer)
  (groups : list (list R)) :
  forall payoff : R,
    fold_left (Napoleon.group_turn self) groups payoff
    = payoff + Np.sum (map (block_contribution self) groups).
Proof.
  induction groups as [|grp groups IH]; intros payoff; cbn [fold_left map].
  - unfold Np.sum. cbn. ring.
  - rewrite IH. unfold Napoleon.group_turn, block_contribution, Np.sum.
    cbn [fold_right]. ring.
Qed.

Lemma block_turn_adds (self : Napoleon.NapoleonOptionPricer)
  (stock_trajectory : list R) (payoff : R) (i : nat) :
  Napoleon.block_turn self stock_trajectory payoff i
  = payoff + each_block_once self stock_trajectory.
Proof.
  unfold Napoleon.block_turn, each_block_once. cbn [Py.range Nat.sub seq fold_left].
  apply group_turns_sum.
Qed.

Lemma block_turns_repeat (self : Napoleon.NapoleonOptionPricer)
  (stock_trajectory : list R) (turns : list nat) :
  forall payoff : R,
    fold_left (Napoleon.block_turn self stock_trajectory) turns payoff
    = payoff + INR (length turns) * each_block_once self stock_trajectory.
Proof.
  induction turns as [|i turns IH]; intros payoff.
  - cbn. ring.
  - cbn [fold_left]. rewrite IH, block_turn_adds.
    change (length (i :: turns)) with (S (length turns)). rewrite S_INR. ring.
Qed.

(** What [calculate_option_payoff] returns on every trajectory: the sum over
    the blocks, repeated [len(stock_trajectory) // 12] times. *)
Lemma napoleon_payoff_repeats_blocks (self : Napoleon.NapoleonOptionPricer)
  (stock_trajectory : list R) :
  Napoleon.calculate_option_payoff self stock_trajectory
  = INR (length stock_trajectory / 12)
    * each_block_once self stock_trajectory.
Proof.
  unfold Napoleon.calculate_option_payoff. rewrite block_turns_repeat.
  unfold Py.range. rewrite length_seq, Nat.sub_0_r. ring.
Qed.

Lemma flat_25_each_block_once :
  each_block_once napoleon_coupon (repeat 1 25) = 2.
Proof.
  unfold each_block_once, Napoleon.monthly_returns_grouped,
    Napoleon.monthly_returns, Py.range_step, Py.range, Py.slice,
    block_contribution, Py.min_or, Np.sum.
  cbn [repeat length Nat.sub Nat.add seq map nth Nat.mul Nat.div Nat.divmod
       fst firstn skipn fold_left fold_right Napoleon.fixed_coupon
       Napoleon.floor napoleon_coupon].
  replace (1 / 1 - 1) with 0 by lra. eval_min_max. lra.
Qed.

Lemma napoleon_flat_path (g : rng) :
  fst (Napoleon.simulate_geometric_brownian_motion napoleon_coupon
         (Napoleon.generate_t napoleon_coupon) g)
  = repeat 1 25.
Proof.
  unfold Napoleon.simulate_geometric_brownian_motion.
  cbn [Napoleon.initial_stock_price Napoleon.drift Napoleon.volatility
       napoleon_coupon].
  rewrite gbm_path_still. f_equal.
  unfold Napoleon.generate_t, Py.range.
  rewrite length_map, length_seq.
  rewrite <- (Int_part_spec (Napoleon.maturity napoleon_coupon * 252) 25)
    by (cbn; lra).
  reflexivity.
Qed.

(** C1, on a trajectory of 25 prices -- The path simulated for S0 = 1, no
    volatility, no drift and maturity 0.1 is flat at 1 over 25 prices; the
    coupon is 1 and the floor 0.  The 24 returns make two blocks of 12, each
    worth [max(1 + 0, 0) = 1], so the payoff with each block counted once
    is 2; [calculate_option_payoff] returns 4, each block counted
    [25 // 12 = 2] times. *)
Theorem napoleon_blocks_counted_twice :
  (forall g : rng,
      fst (Napoleon.simulate_geometric_brownian_motion napoleon_coupon
             (Napoleon.generate_t napoleon_coupon) g)
      = repeat 1 25)
  /\ each_block_once napoleon_coupon (repeat 1 25) = 2
  /\ Napoleon.calculate_option_payoff napoleon_coupon (repeat 1 25) = 4.
Proof.
  split; [exact napoleon_flat_path | split].
  - exact flat_25_each_block_once.
  - rewrite napoleon_payoff_repeats_blocks, flat_25_each_block_once.
    rewrite repeat_length. change (25 / 12)%nat with 2%nat. cbn [INR]. lra.
Qed.

(** ** The Himalaya payoff *)

Lemma fold_max_spec (l : list R) :
  forall x : R,
    In (fold_left Rmax l x) (x :: l)
    /\ (forall y : R, In y (x :: l) -> y <= fold_left Rmax l x).
Proof.
  induction l as [|y l IH]; intros x; cbn [fold_left].
  - split; [left; reflexivity|]. intros y [<- | []]. lra.
  - destruct (IH (Rmax x y)) as [Hin Hub]. split.
    + destruct Hin as [Heq | Hin].
      * rewrite <- Heq. apply Rmax_case; [left | right; left]; reflexivity.
      * right. right. exact Hin.
    + assert (Hxy : Rmax x y <= fold_left Rmax l (Rmax x y)).
      { apply Hub. left. reflexivity. }
      intros z [Hz | [Hz | Hz]].
      * subst z. apply Rle_trans with (Rmax x y); [apply Rmax_l | exact Hxy].
      * subst z. apply Rle_trans with (Rmax x y); [apply Rmax_r | exact Hxy].
      * apply Hub. right. exact Hz.
Qed.

Lemma np_max_greatest (l : list R) (best : R) :
  In best l -> (forall v : R, In v l -> v <= best) ->
  Np.max l = Py.Ok best.
Proof.
  intros Hin Hub. destruct l as [|x l]; [destruct Hin|].
  unfold Np.max. f_equal. destruct (fold_max_spec l x) as [Hm Hle].
  apply Rle_antisym; [apply Hub, Hm | apply Hle, Hin].
Qed.

Lemma map_nth_range {A B : Type} (f : A -> B) (d : A) (l : list A) :
  map (fun j => f (nth j l d)) (Py.range 0 (length l)) = map f l.
Proof.
  unfold Py.range. rewrite Nat.sub_0_r.
  induction l as [|x l IH]; [reflexivity|].
  cbn [length seq map nth]. rewrite <- seq_shift, map_map. cbn [nth].
  rewrite IH. reflexivity.
Qed.

Lemma himalaya_payoff_unfold (self : Himalaya.HimalayaOptionPricer)
  (trajectory : list (list R)) :
  Himalaya.calculate_payoff self trajectory
  = (max_payoff <- Np.max (concat (map (map exp) trajectory));;
     Himalaya.max_axis0 max_payoff (Himalaya.strike_price self)).
Proof.
  unfold Himalaya.calculate_payoff. rewrite map_nth_range. reflexivity.
Qed.

Lemma max_axis0_single (best k : R) (s : Himalaya.strike) :
  s = Himalaya.Scalar k \/ s = Himalaya.Vector [k] ->
  Himalaya.max_axis0 best s = Py.Ok (best - k).
Proof. intros [-> | ->]; reflexivity. Qed.

(** C2, as the code has it -- For series of one length, the payoff is taken
    from the greatest value of [exp(logPrice)] over every series and every
    grid step, not from the terminal values: when that greatest value [best] is at least the strike
    the payoff is [best - strike = max(best - strike, 0)].  With
    [numAssets = 1] the grid is the single point 0, the trajectory of the
    one asset is its initial log-price, and for a strike not above [S0] the
    payoff is [S0 - strike = max(S0 - strike, 0)]. *)
Theorem himalaya_best_value_over_grid :
  forall (self single : Himalaya.HimalayaOptionPricer)
         (trajectory : list (list R)) (series : list R)
         (logp best k S0 : R) (g : rng),
    (forall s : list R, In s trajectory -> length s = length series) ->
    In series trajectory -> In logp series -> best = exp logp ->
    (forall (s : list R) (v : R), In s trajectory -> In v s -> exp v <= best) ->
    Himalaya.strike_price self = Himalaya.Scalar k
    \/ Himalaya.strike_price self = Himalaya.Vector [k] ->
    k <= best ->
    Himalaya.num_assets single = 1%Z ->
    Himalaya.initial_asset_values single = [S0] ->
    Himalaya.strike_price single = Himalaya.Scalar k
    \/ Himalaya.strike_price single = Himalaya.Vector [k] ->
    0 < S0 -> k <= S0 ->
    Himalaya.calculate_payoff self trajectory = Py.Ok (Rmax (best - k) 0)
    /\ Himalaya.generate_time_vector single = [0]
    /\ fst (Himalaya.simulate_trajectory single
              (Himalaya.generate_time_vector single) g)
       = [[ln S0]]
    /\ Himalaya.calculate_payoff single [[ln S0]]
       = Py.Ok (Rmax (S0 - k) 0).
Proof.
  intros self single trajectory series logp best k S0 g _ Hs Hl Hbest Hub Hk
    Hle Hn Hinit Hk1 HS0 HkS0.
  assert (Hgrid : Himalaya.generate_time_vector single = [0]).
  { unfold Himalaya.generate_time_vector. rewrite Hn. reflexivity. }
  split; [|split; [exact Hgrid | split]].
  - rewrite himalaya_payoff_unfold.
    rewrite (np_max_greatest _ best).
    + cbn [Py.bind]. rewrite (max_axis0_single best k _ Hk).
      rewrite Rmax_left by lra. reflexivity.
    + apply in_concat. exists (map exp series). split.
      * apply in_map, Hs.
      * rewrite Hbest. apply in_map, Hl.
    + intros v Hv. apply in_concat in Hv. destruct Hv as [row [Hrow Hv]].
      apply in_map_iff in Hrow. destruct Hrow as [s [<- Hs']].
      apply in_map_iff in Hv. destruct Hv as [w [<- Hw]].
      apply (Hub s w Hs' Hw).
  - rewrite Hgrid. unfold Himalaya.simulate_trajectory. rewrite Hinit.
    cbn [length Py.range Nat.sub seq fold_left]. unfold Himalaya.asset_turn.
    cbn [length Py.range Nat.sub seq fold_left fst app]. rewrite Hinit.
    reflexivity.
  - rewrite himalaya_payoff_unfold.
    cbn [map concat app Np.max fold_left Py.bind].
    rewrite (max_axis0_single _ k _ Hk1).
    rewrite exp_ln by exact HS0. rewrite Rmax_left by lra. reflexivity.
Qed.

Lemma himalaya_best_value_over_grid_witness :
  Himalaya.calculate_payoff (himalaya_one 1 0) [[1; 0]]
  = Py.Ok (Rmax (exp 1 - 0) 0)
  /\ Himalaya.calculate_payoff (himalaya_one 1 0) [[ln 1]]
     = Py.Ok (Rmax (1 - 0) 0).
Proof.
  assert (H1 : 1 <= exp 1).
  { pose proof (exp_ineq1_le 1). lra. }
  destruct (himalaya_best_value_over_grid (himalaya_one 1 0)
              (himalaya_one 1 0) [[1; 0]] [1; 0] 1 (exp 1) 0 1 (fun _ => 0))
    as (Hp & _ & _ & Hone).
  - intros s [<- | []]. reflexivity.
  - left. reflexivity.
  - left. reflexivity.
  - reflexivity.
  - intros s v [<- | []] [<- | [<- | []]]; [lra | rewrite exp_0; exact H1].
  - right. reflexivity.
  - lra.
  - reflexivity.
  - reflexivity.
  - right. reflexivity.
  - lra.
  - lra.
  - split; [exact Hp | exact Hone].
Defined.

(** C2, as stated, fails: one asset of initial value [e], volatility 1/5,
    no drift, on the grid [[0; 1]], with the draw -4.9.  The simulated
    log-prices are [[1; 0]]: the terminal value is [exp 0 = 1], so the stated
    payoff at strike 0 is 1; [calculate_payoff] returns [exp 1], the value at
    the first grid step. *)
Lemma himalaya_payoff_not_terminal :
  fst (Himalaya.simulate_trajectory himalaya_two_steps
         (Himalaya.generate_time_vector himalaya_two_steps)
         (fun _ => - (49 / 10)))
  = [[1; 0]]
  /\ best_terminal_call 0 [[1; 0]] = Py.Ok 1
  /\ Himalaya.calculate_payoff himalaya_two_steps [[1; 0]] = Py.Ok (exp 1)
  /\ Himalaya.calculate_payoff himalaya_two_steps [[1; 0]]
     <> best_terminal_call 0 [[1; 0]].
Proof.
  assert (H1 : 1 < exp 1).
  { pose proof (exp_ineq1 1). lra. }
  assert (Hcode : Himalaya.calculate_payoff himalaya_two_steps [[1; 0]]
                  = Py.Ok (exp 1)).
  { rewrite himalaya_payoff_unfold. cbn [map concat app Np.max fold_left
      Py.bind Himalaya.strike_price himalaya_two_steps Himalaya.max_axis0].
    rewrite exp_0, Rmax_left by lra. f_equal. lra. }
  assert (Hspec : best_terminal_call 0 [[1; 0]] = Py.Ok 1).
  { unfold best_terminal_call. cbn [map last Np.max fold_left Py.bind].
    rewrite exp_0, Rmax_left by lra. f_equal. lra. }
  split; [|split; [exact Hspec | split; [exact Hcode|]]].
  - change (Himalaya.generate_time_vector himalaya_two_steps) with [0; 1].
    unfold Himalaya.simulate_trajectory, Himalaya.asset_turn,
      Himalaya.log_step, Py.range.
    cbn [Himalaya.initial_asset_values Himalaya.volatility Himalaya.mean
         himalaya_two_steps Nat.sub length seq fold_left normal nth last app
         fst].
    rewrite ln_exp. replace (1 - 0) with 1 by lra. rewrite sqrt_1.
    do 3 f_equal. field.
  - rewrite Hcode, Hspec. intros H. injection H as H. lra.
Qed.

(** ** Signs of the payoffs *)

Lemma Forall_slice {A : Type} (P : A -> Prop) (lo hi : nat) (l : list A) :
  Forall P l -> Forall P (Py.slice lo hi l).
Proof.
  intros H. rewrite Forall_forall in *. intros x Hx. apply H.
  unfold Py.slice in Hx.
  rewrite <- (firstn_skipn lo l). apply in_or_app. right.
  rewrite <- (firstn_skipn (hi - lo) (skipn lo l)). apply in_or_app.
  left. exact Hx.
Qed.

Lemma tunnel_walk_nonneg (self : Tunnel.TunnelOptionPricer) (k0 k1 : R)
  (rest : list R) :
  Tunnel.K self = k0 :: k1 :: rest ->
  0 < Tunnel.S_0 self -> 0 <= Tunnel.alpha self -> 0 <= Tunnel.beta self ->
  forall interior : list R,
    Forall (fun v => 0 <= v) interior ->
    forall acc : R, 0 <= acc ->
      exists p : R,
        fold_left (Tunnel.payoff_step self) interior (Py.Ok acc) = Py.Ok p
        /\ 0 <= p.
Proof.
  intros HK HS Ha Hb. induction interior as [|i interior IH];
    intros Hall acc Hacc.
  - exists acc. split; [reflexivity | exact Hacc].
  - inversion Hall as [|? ? Hi Hrest]; subst. cbn [fold_left].
    unfold Tunnel.payoff_step at 2. rewrite HK.
    cbn [Py.bind Py.getitem nth_error].
    assert (Hq : 0 <= i / Tunnel.S_0 self).
    { apply Rmult_le_pos; [exact Hi|]. left. apply Rinv_0_lt_compat, HS. }
    assert (Hqa : 0 <= i / Tunnel.S_0 self * Tunnel.alpha self)
      by (apply Rmult_le_pos; assumption).
    assert (Hqb : 0 <= i / Tunnel.S_0 self * Tunnel.beta self)
      by (apply Rmult_le_pos; assumption).
    destruct (Rlt_dec k0 i), (Rlt_dec i k1), (Rgt_dec i k1);
      apply IH; try assumption; lra.
Qed.

Lemma sum_nonneg (l : list R) : Forall (fun x => 0 <= x) l -> 0 <= Np.sum l.
Proof.
  induction 1 as [|x l Hx _ IH]; unfold Np.sum in *; cbn [fold_right]; lra.
Qed.

(** C3, as the code has it -- On trajectories of positive prices, as the
    simulator produces them: the Vanilla payoff (of more than 61 prices,
    so that both windows are filled) is [>= 0]; the Tunnel payoff of a
    non-empty trajectory is returned and is [>= 0] when [S0 > 0] and both
    rates are [>= 0]; the Napoleon payoff is [>= 0] when the floor is
    [>= 0]. *)
Theorem payoffs_nonnegative_by_variant :
  forall (v : Vanilla.McSimul) (t : Tunnel.TunnelOptionPricer)
         (n : Napoleon.NapoleonOptionPricer) (Sv St Sn : list R)
         (k0 k1 : R),
    (61 < length Sv)%nat -> Forall (fun x => 0 < x) Sv ->
    Tunnel.K t = [k0; k1] -> 0 < Tunnel.S_0 t ->
    0 <= Tunnel.alpha t -> 0 <= Tunnel.beta t ->
    St <> [] -> Forall (fun x => 0 <= x) St ->
    Forall (fun x => 0 < x) Sn -> 0 <= Napoleon.floor n ->
    0 <= Vanilla.calculate_payoff v Sv
    /\ (exists p : R, Tunnel.payoff t St = Py.Ok p /\ 0 <= p)
    /\ 0 <= Napoleon.calculate_option_payoff n Sn.
Proof.
  intros v t n Sv St Sn k0 k1 _ _ HK HS Ha Hb Hne Hpos _ Hfloor.
  split; [apply Rmax_r | split].
  - unfold Tunnel.payoff.
    destruct (tunnel_walk_nonneg t k0 k1 [] HK HS Ha Hb
                (Py.slice 1 (length St - 1) St)
                (Forall_slice _ _ _ _ Hpos) 0 (Rle_refl 0)) as [p [-> Hp]].
    rewrite (last_item_nonempty St 0 Hne), HK.
    cbn [Py.bind Py.getitem nth_error]. eexists. split; [reflexivity|].
    pose proof (Rmax_r (last St 0 / Tunnel.S_0 t - k1) 0). lra.
  - rewrite napoleon_payoff_repeats_blocks.
    apply Rmult_le_pos; [apply pos_INR|].
    unfold each_block_once. apply sum_nonneg.
    rewrite Forall_forall. intros x Hx. apply in_map_iff in Hx.
    destruct Hx as [blk [<- _]]. unfold block_contribution.
    apply Rle_trans with (Napoleon.floor n); [exact Hfloor | apply Rmax_r].
Qed.

Lemma payoffs_nonnegative_by_variant_witness :
  0 <= Vanilla.calculate_payoff (vanilla_level (9 / 10)) (repeat 100 120)
  /\ (exists p : R,
        Tunnel.payoff tunnel_coupons [100; 95; 120; 105] = Py.Ok p /\ 0 <= p)
  /\ 0 <= Napoleon.calculate_option_payoff napoleon_coupon (repeat 1 25).
Proof.
  apply (payoffs_nonnegative_by_variant (vanilla_level (9 / 10))
           tunnel_coupons napoleon_coupon (repeat 100 120)
           [100; 95; 120; 105] (repeat 1 25) 90 110).
  - cbn. lia.
  - apply Forall_forall. intros x Hx. apply repeat_spec in Hx. lra.
  - reflexivity.
  - cbn. lra.
  - cbn. lra.
  - cbn. lra.
  - discriminate.
  - repeat constructor; lra.
  - apply Forall_forall. intros x Hx. apply repeat_spec in Hx. lra.
  - cbn. lra.
Defined.

(** C3, as stated, fails: with a coupon of 0 and a floor of -1, the Napoleon
    payoff of the twelve prices 2, 1, ..., 1 is -1/2: the one block of
    returns has the minimum -1/2, above the floor. *)
Lemma napoleon_payoff_negative :
  Napoleon.calculate_option_payoff napoleon_deep_floor (2 :: repeat 1 11)
  = - (1 / 2)
  /\ Napoleon.calculate_option_payoff napoleon_deep_floor (2 :: repeat 1 11)
     < 0.
Proof.
  assert (H : Napoleon.calculate_option_payoff napoleon_deep_floor
                (2 :: repeat 1 11) = - (1 / 2)).
  { rewrite napoleon_payoff_repeats_blocks.
    unfold each_block_once, Napoleon.monthly_returns_grouped,
      Napoleon.monthly_returns, Py.range_step, Py.range, Py.slice,
      block_contribution, Py.min_or, Np.sum.
    cbn [repeat length Nat.sub Nat.add seq map nth Nat.mul Nat.div
         Nat.divmod fst firstn skipn fold_left fold_right
         Napoleon.fixed_coupon Napoleon.floor napoleon_deep_floor INR].
    replace (1 / 2 - 1) with (- (1 / 2)) by lra.
    replace (1 / 1 - 1) with 0 by lra.
    eval_min_max. lra. }
  split; [exact H | rewrite H; lra].
Qed.

(** ** The Vanilla grid, paths and payoff *)

Lemma ceil_IZR (z : Z) : Np.ceil (IZR z) = z.
Proof.
  unfold Np.ceil. rewrite <- (Int_part_spec (- IZR z) (- z)).
  - lia.
  - rewrite opp_IZR. lra.
Qed.

Lemma arange_length (start stop step : R) (n : Z) :
  (stop - start) / step = IZR n ->
  length (Np.arange start stop step) = Z.to_nat n.
Proof.
  intros H. unfold Np.arange. rewrite length_map, length_seq, H, ceil_IZR.
  reflexivity.
Qed.

(** In exact arithmetic the second window has 59 points, [maturity - 59/252]
    to [maturity - 1/252].  (In binary64 the quotient
    [(stop - start)/step] of this window rounds to a value just above 59 for
    the integer maturities of the form, and [np.arange] then returns 60
    points; the statements below that depend on the grid only use that it
    has more than 61 points.) *)
Lemma vanilla_grid_length (self : Vanilla.McSimul) :
  length (Vanilla.generate_time_vector self) = 119%nat.
Proof.
  unfold Vanilla.generate_time_vector. rewrite length_app.
  rewrite (arange_length 0 (60 / 252) (1 / 252) 60) by (cbn; field).
  rewrite (arange_length _ _ (1 / 252) 59) by (cbn; field).
  reflexivity.
Qed.

Lemma vanilla_payoff_constant (self : Vanilla.McSimul) (x : R) (n : nat) :
  x <> 0 -> (61 < n)%nat ->
  Vanilla.calculate_payoff self (repeat x n)
  = Rmax (1 - Vanilla.strike_price self) 0.
Proof.
  intros Hx Hn. unfold Vanilla.calculate_payoff.
  rewrite skipn_repeat_sub, firstn_repeat_le by lia.
  replace (n - 61)%nat with (S (n - 62)) by lia.
  rewrite !mean_repeat. f_equal. field. exact Hx.
Qed.

Lemma vanilla_trials_still (self : Vanilla.McSimul) (t : list R) (n : nat) :
  Vanilla.volatility self = 0 -> Vanilla.drift self = 0 ->
  Vanilla.initial_stock_price self <> 0 -> (61 < length t)%nat ->
  forall (payoffs : list R) (g : rng),
    fst (Vanilla.trials self t n payoffs g)
    = payoffs ++ repeat (Rmax (1 - Vanilla.strike_price self) 0) n.
Proof.
  intros Hv Hd Hx Ht. induction n as [|n IH]; intros payoffs g.
  - cbn [Vanilla.trials fst repeat]. rewrite app_nil_r. reflexivity.
  - cbn [Vanilla.trials].
    destruct (Vanilla.simulate_gbm self t g) as [path g'] eqn:Hpath.
    assert (Hp : path = repeat (Vanilla.initial_stock_price self)
                          (Nat.max (length t) 1)).
    { change path with (fst (path, g')). rewrite <- Hpath.
      unfold Vanilla.simulate_gbm. rewrite Hv, Hd. apply gbm_path_still. }
    rewrite IH, Hp, vanilla_payoff_constant by (try assumption; lia).
    rewrite <- app_assoc. reflexivity.
Qed.

Lemma convergence_constant (a x : R) (n : nat) :
  convergence_loop a (repeat x n)
  = {| moving_average := repeat x n; standard_deviation := repeat 0 n;
       lower_bound := repeat x n; upper_bound := repeat x n |}.
Proof.
  rewrite convergence_loop_maps, repeat_length.
  assert (Hpre : forall i : nat, In i (seq 0 n) ->
                 firstn (i + 1) (repeat x n) = repeat x (S i)).
  { intros i Hi. apply in_seq in Hi. rewrite firstn_repeat_le by lia.
    f_equal. lia. }
  assert (Hm : forall i : nat, In i (seq 0 n) -> mean_at (repeat x n) i = x).
  { intros i Hi. unfold mean_at. rewrite Hpre by exact Hi.
    apply mean_repeat. }
  assert (Hs : forall i : nat, In i (seq 0 n) -> std_at (repeat x n) i = 0).
  { intros i Hi. unfold std_at. rewrite Hpre by exact Hi. apply std_repeat. }
  rewrite (map_constant _ x), (map_constant _ 0) by assumption.
  rewrite (map_constant (lower_at a (repeat x n)) x),
          (map_constant (upper_at a (repeat x n)) x).
  - rewrite length_seq. reflexivity.
  - intros i Hi. unfold upper_at. rewrite Hm, Hs by exact Hi.
    destruct (0 <? i)%nat; [unfold Rdiv; ring | reflexivity].
  - intros i Hi. unfold lower_at. rewrite Hm, Hs by exact Hi.
    destruct (0 <? i)%nat; [unfold Rdiv; ring | reflexivity].
Qed.

(** C4, as the code has it -- In scenario A (S0 = 100, strike 0, volatility
    0, drift 0, maturity 1, 10 simulations), whatever the draws: every
    simulated path is constant at 100; every trial's payoff is
    [max(100/100 - 0, 0) = 1]; the running means are all 1, as are both
    bounds; the final price is 1 and the final error 0. *)
Theorem scenario_A_payoffs_are_one :
  forall (norm_ppf : R -> R) (g : rng),
    fst (Vanilla.simulate_gbm scenario_A
           (Vanilla.generate_time_vector scenario_A) g)
    = repeat 100 (length (Vanilla.generate_time_vector scenario_A))
    /\ fst (Vanilla.simulate_monte_carlo scenario_A g) = repeat 1 10
    /\ Vanilla.perform_monte_carlo norm_ppf scenario_A (repeat 1 10)
       = (repeat 1 10, repeat 1 10, repeat 1 10)
    /\ Vanilla.generate_convergence_curve norm_ppf scenario_A g
       = Py.Ok (1, 0).
Proof.
  intros norm_ppf g.
  assert (Hmc : fst (Vanilla.simulate_monte_carlo scenario_A g)
                = repeat 1 10).
  { unfold Vanilla.simulate_monte_carlo.
    rewrite vanilla_trials_still;
      try reflexivity; try (rewrite vanilla_grid_length; lia);
      try (cbn; lra).
    cbn [app Vanilla.strike_price scenario_A Vanilla.num_simulations].
    replace (Rmax (1 - 0) 0) with 1; [reflexivity|].
    rewrite Rmax_left; lra. }
  assert (Hconv : Vanilla.perform_monte_carlo norm_ppf scenario_A
                    (repeat 1 10)
                  = (repeat 1 10, repeat 1 10, repeat 1 10)).
  { unfold Vanilla.perform_monte_carlo, convergence.
    rewrite convergence_constant. reflexivity. }
  split; [|split; [exact Hmc | split; [exact Hconv|]]].
  - unfold Vanilla.simulate_gbm.
    cbn [Vanilla.initial_stock_price Vanilla.drift Vanilla.volatility
         scenario_A].
    rewrite gbm_path_still, vanilla_grid_length. reflexivity.
  - unfold Vanilla.generate_convergence_curve.
    destruct (Vanilla.simulate_monte_carlo scenario_A g) as [payoffs g'].
    cbn [fst] in Hmc. subst payoffs. rewrite Hconv.
    unfold final_report. cbn [repeat Py.last_item rev app Py.bind].
    f_equal. f_equal. lra.
Qed.

(** C4, as stated, fails: in scenario A, with every draw equal to 0, the
    ten payoffs are all 1, none is 0, and the first running mean is 1. *)
Lemma scenario_A_payoffs_not_zero :
  fst (Vanilla.simulate_monte_carlo scenario_A (fun _ => 0)) = repeat 1 10
  /\ ~ Forall (fun payoff => payoff = 0)
         (fst (Vanilla.simulate_monte_carlo scenario_A (fun _ => 0)))
  /\ nth 0 (fst (fst (Vanilla.perform_monte_carlo centred scenario_A
                        (fst (Vanilla.simulate_monte_carlo scenario_A
                                (fun _ => 0)))))) 0
     <> 0.
Proof.
  assert (Hmc : fst (Vanilla.simulate_monte_carlo scenario_A (fun _ => 0))
                = repeat 1 10).
  { unfold Vanilla.simulate_monte_carlo.
    rewrite vanilla_trials_still;
      try reflexivity; try (rewrite vanilla_grid_length; lia);
      try (cbn; lra).
    cbn [app Vanilla.strike_price scenario_A Vanilla.num_simulations].
    replace (Rmax (1 - 0) 0) with 1; [reflexivity|].
    rewrite Rmax_left; lra. }
  rewrite Hmc. split; [reflexivity | split].
  - intros H. inversion H as [|? ? H1 _]. lra.
  - unfold Vanilla.perform_monte_carlo, convergence.
    rewrite convergence_constant. cbn [fst moving_average repeat nth]. lra.
Qed.

(** ** The late window of the Vanilla payoff *)

(** C5, on a trajectory of 120 prices -- The prices are 1 except
    [S[60] = 61], and the strike is 0.  The mean of the last 60 observations
    is 2 and that of the first 60 is 1, so the stated payoff is 2;
    [calculate_payoff] averages [stock_prices[61:]], the last 59
    observations, and returns 1: [S[60]] is in neither window. *)
Theorem vanilla_late_window_skips_S60 :
  length spike_at_60 = 120%nat
  /\ last_60_over_first_60 0 spike_at_60 = 2
  /\ Vanilla.calculate_payoff scenario_A spike_at_60 = 1
  /\ skipn 61 spike_at_60 = repeat 1 59.
Proof.
  split; [reflexivity | split; [|split; [|reflexivity]]].
  - unfold last_60_over_first_60.
    change (skipn (length spike_at_60 - 60) spike_at_60)
      with (61 :: repeat 1 59).
    change (firstn 60 spike_at_60) with (repeat 1 60).
    rewrite mean_repeat. unfold Np.mean.
    change (Np.sum (61 :: repeat 1 59)) with (61 + Np.sum (repeat 1 59)).
    rewrite sum_repeat. change (length (61 :: repeat 1 59)) with 60%nat.
    rewrite !INR_IZR_INZ. cbn [Z.of_nat Pos.of_succ_nat Pos.succ].
    rewrite Rmax_left; lra.
  - unfold Vanilla.calculate_payoff.
    change (skipn 61 spike_at_60) with (repeat 1 59).
    change (firstn 60 spike_at_60) with (repeat 1 60).
    rewrite !mean_repeat. cbn [Vanilla.strike_price scenario_A].
    rewrite Rmax_left; lra.
Qed.

(** ** Runs on inputs the specification calls invalid *)

Lemma tunnel_walk_total (self : Tunnel.TunnelOptionPricer) (k0 k1 : R)
  (rest : list R) :
  Tunnel.K self = k0 :: k1 :: rest ->
  forall (interior : list R) (acc : R),
    exists p : R,
      fold_left (Tunnel.payoff_step self) interior (Py.Ok acc) = Py.Ok p.
Proof.
  intros HK. induction interior as [|i interior IH]; intros acc.
  - exists acc. reflexivity.
  - cbn [fold_left]. unfold Tunnel.payoff_step at 2. rewrite HK.
    cbn [Py.bind Py.getitem nth_error].
    destruct (Rlt_dec k0 i), (Rlt_dec i k1), (Rgt_dec i k1); apply IH.
Qed.

Lemma tunnel_payoff_total (self : Tunnel.TunnelOptionPricer) (k0 k1 : R)
  (S : list R) :
  Tunnel.K self = [k0; k1] -> S <> [] ->
  exists p : R, Tunnel.payoff self S = Py.Ok p.
Proof.
  intros HK HS. unfold Tunnel.payoff.
  destruct (tunnel_walk_total self k0 k1 [] HK
              (Py.slice 1 (length S - 1) S) 0) as [p ->].
  rewrite (last_item_nonempty S 0 HS), HK.
  cbn [Py.bind Py.getitem nth_error]. eexists. reflexivity.
Qed.

Lemma tunnel_trials_total (self : Tunnel.TunnelOptionPricer) (k0 k1 : R)
  (t : list R) (n : nat) :
  Tunnel.K self = [k0; k1] ->
  forall (P : list R) (g : rng),
    exists P' : list R,
      fst (Tunnel.trials self t n P g) = Py.Ok P'
      /\ length P' = (length P + n)%nat.
Proof.
  intros HK. induction n as [|n IH]; intros P g.
  - exists P. split; [reflexivity | cbn; lia].
  - cbn [Tunnel.trials].
    destruct (Tunnel.simulate_gbm self t g) as [path g'] eqn:Hpath.
    assert (Hne : path <> []).
    { intros ->. pose proof (gbm_path_shape (Tunnel.S_0 self)
        (Tunnel.mu self) (Tunnel.sigma self) t g) as [Hlen _].
      unfold Tunnel.simulate_gbm in Hpath. rewrite Hpath in Hlen.
      cbn [fst length] in Hlen. lia. }
    destruct (tunnel_payoff_total self k0 k1 path HK Hne) as [p ->].
    destruct (IH (P ++ [p]) g') as [P' [HP' Hlen]].
    exists P'. split; [exact HP'|].
    rewrite Hlen, length_app. cbn [length]. lia.
Qed.

Lemma final_report_nonempty (norm_ppf : R -> R) (c : R) (P : list R) :
  P <> [] -> exists r : R * R, final_report (convergence norm_ppf c P) = Py.Ok r.
Proof.
  intros HP. unfold convergence, final_report.
  rewrite convergence_loop_maps.
  cbn [moving_average lower_bound upper_bound].
  destruct P as [|p P]; [congruence|]. cbn [length seq map].
  rewrite !(last_item_nonempty _ 0) by discriminate.
  cbn [Py.bind]. eexists. reflexivity.
Qed.

(** C9, as the code has it -- Nothing validates the input.  A Tunnel pricer
    with two strikes in any order and [S0 <> 0], whatever its volatility,
    rates, confidence level and number of simulations, runs
    [max(numSimulations, 0)] trials and returns as many payoffs, and so does
    every Vanilla pricer; with [numSimulations > 0] the run ends with a
    final price and error; with [numSimulations <= 0] the payoff series is
    empty and the run ends in the [IndexError] of [M[-1]]. *)
Theorem runs_without_validation :
  forall (norm_ppf : R -> R) (t : Tunnel.TunnelOptionPricer)
         (v : Vanilla.McSimul) (lowerStrike upperStrike : R) (g : rng),
    Tunnel.K t = [lowerStrike; upperStrike] ->
    Tunnel.S_0 t <> 0 ->
    (exists P : list R,
        fst (Tunnel.simulate_monte_carlo t g) = Py.Ok P
        /\ length P = Z.to_nat (Tunnel.Ns t)
        /\ ((0 < Tunnel.Ns t)%Z ->
            exists r : R * R,
              Tunnel.generate_convergence_curve norm_ppf t g = Py.Ok (P, r))
        /\ ((Tunnel.Ns t <= 0)%Z ->
            P = []
            /\ Tunnel.generate_convergence_curve norm_ppf t g
               = Py.Raise Py.IndexError))
    /\ length (fst (Vanilla.simulate_monte_carlo v g))
       = Z.to_nat (Vanilla.num_simulations v).
Proof.
  intros norm_ppf t v k0 k1 g HK HS. split.
  - destruct (tunnel_trials_total t k0 k1 (Tunnel.generate_t t)
                (Z.to_nat (Tunnel.Ns t)) HK [] g) as [P [HP Hlen]].
    cbn [length Nat.add] in Hlen.
    change (fst (Tunnel.simulate_monte_carlo t g) = Py.Ok P) in HP.
    exists P. split; [exact HP | split; [exact Hlen | split]].
    + intros Hpos. unfold Tunnel.generate_convergence_curve.
      rewrite HP. cbn [Py.bind]. unfold Tunnel.convergence_mc.
      destruct (final_report_nonempty norm_ppf (Tunnel.IC t) P) as [r ->].
      * intros ->. cbn [length] in Hlen. lia.
      * exists r. reflexivity.
    + intros Hneg. assert (HP0 : P = []).
      { destruct P; [reflexivity|]. cbn [length] in Hlen. lia. }
      split; [exact HP0|]. unfold Tunnel.generate_convergence_curve.
      rewrite HP, HP0. reflexivity.
  - unfold Vanilla.simulate_monte_carlo.
    generalize (Vanilla.generate_time_vector v) as tv.
    generalize (Z.to_nat (Vanilla.num_simulations v)) as n.
    intros n tv. change n with (length (@nil R) + n)%nat at 2.
    generalize (@nil R) as P. revert g.
    induction n as [|n IH]; intros g P; cbn [Vanilla.trials].
    + cbn [fst]. lia.
    + destruct (Vanilla.simulate_gbm v tv g) as [path g'].
      rewrite IH, length_app. cbn [length]. lia.
Qed.

Lemma runs_without_validation_witness :
  exists P : list R,
    fst (Tunnel.simulate_monte_carlo tunnel_crossed (fun _ => 0)) = Py.Ok P
    /\ length P = Z.to_nat (Tunnel.Ns tunnel_crossed).
Proof.
  destruct (runs_without_validation centred tunnel_crossed scenario_A
              110 90 (fun _ => 0)) as [[P (HP & Hlen & _)] _].
  - reflexivity.
  - cbn. lra.
  - exists P. split; [exact HP | exact Hlen].
Defined.

Lemma tunnel_trials_flat (self : Tunnel.TunnelOptionPricer) (k0 k1 : R)
  (t : list R) (n : nat) :
  Tunnel.sigma self = 0 -> Tunnel.mu self = 0 ->
  Tunnel.alpha self = 0 -> Tunnel.beta self = 0 ->
  Tunnel.K self = [k0; k1] ->
  forall (P : list R) (g : rng),
    fst (Tunnel.trials self t n P g)
    = Py.Ok (P ++ repeat (Rmax (Tunnel.S_0 self / Tunnel.S_0 self - k1) 0) n).
Proof.
  intros Hs Hm Ha Hb HK. induction n as [|n IH]; intros P g.
  - cbn [Tunnel.trials fst repeat]. rewrite app_nil_r. reflexivity.
  - cbn [Tunnel.trials].
    destruct (Tunnel.simulate_gbm self t g) as [path g'] eqn:Hpath.
    assert (Hp : path = repeat (Tunnel.S_0 self)
                          (S (Nat.max (length t) 1 - 1))).
    { change path with (fst (path, g')). rewrite <- Hpath.
      unfold Tunnel.simulate_gbm. rewrite Hs, Hm, gbm_path_still.
      f_equal. lia. }
    assert (Hpay : Tunnel.payoff self path
                   = Py.Ok (Rmax (Tunnel.S_0 self / Tunnel.S_0 self - k1) 0)).
    { unfold Tunnel.payoff.
      rewrite (tunnel_walk_zero_rates self k0 k1 [] Ha Hb HK).
      rewrite (last_item_nonempty path 0) by (rewrite Hp; discriminate).
      rewrite HK, Hp, last_repeat.
      cbn [Py.bind Py.getitem nth_error]. f_equal. ring. }
    rewrite Hpay, IH, <- app_assoc. reflexivity.
Qed.

(** C9, as stated, fails: with the lower strike 110 above the upper strike
    90 (and valid values elsewhere) the run raises nothing: whatever the
    draws and the quantile, both trials execute, the payoff series is
    [[0; 0]], and the run reports the final price 0 and the error 0. *)
Lemma crossed_strikes_run_completes :
  nth 0 (Tunnel.K tunnel_crossed) 0 >= nth 1 (Tunnel.K tunnel_crossed) 0
  /\ (forall (norm_ppf : R -> R) (g : rng),
      fst (Tunnel.simulate_monte_carlo tunnel_crossed g) = Py.Ok [0; 0]
      /\ Tunnel.generate_convergence_curve norm_ppf tunnel_crossed g
         = Py.Ok ([0; 0], (0, 0))).
Proof.
  split; [cbn; lra|]. intros norm_ppf g.
  assert (Hmc : fst (Tunnel.simulate_monte_carlo tunnel_crossed g)
                = Py.Ok [0; 0]).
  { unfold Tunnel.simulate_monte_carlo.
    rewrite (tunnel_trials_flat tunnel_crossed 110 90) by reflexivity.
    cbn [Tunnel.Ns Tunnel.S_0 tunnel_crossed Z.to_nat Pos.to_nat
         Pos.iter_op Nat.add repeat app].
    replace (Rmax (100 / 100 - 90) 0) with 0; [reflexivity|].
    rewrite Rmax_right; lra. }
  split; [exact Hmc|].
  unfold Tunnel.generate_convergence_curve. rewrite Hmc. cbn [Py.bind].
  unfold Tunnel.convergence_mc, convergence.
  change [0; 0] with (repeat 0 2). rewrite convergence_constant.
  unfold final_report.
  cbn [moving_average lower_bound upper_bound repeat Py.last_item rev app
       Py.bind].
  replace (0 - 0) with 0 by lra. reflexivity.
Qed.

(** * Further properties of the code *)

(** ** The path, price by price *)

Lemma advance_nth (k : nat) (g : rng) (n : nat) :
  advance k g n = g (n + k)%nat.
Proof.
  revert n. induction k as [|k IH]; intros n; cbn [advance].
  - f_equal. lia.
  - rewrite IH. f_equal. lia.
Qed.

Lemma advance_add (j k : nat) (g : rng) (n : nat) :
  advance j (advance k g) n = advance (k + j) g n.
Proof. rewrite !advance_nth. f_equal. lia. Qed.

Lemma gbm_step_unroll (S_0 mu sigma : R) (t : list R) (g : rng) (k : nat) :
  gbm_step mu sigma t
    (map (gbm_price S_0 mu sigma t g) (seq 0 (S k)), advance k g) (S k)
  = (map (gbm_price S_0 mu sigma t g) (seq 0 (S (S k))), advance (S k) g).
Proof.
  unfold gbm_step. cbn [normal advance].
  rewrite (seq_S (S k) 0), (map_app _ (seq 0 (S k))). cbn [map Nat.add].
  rewrite (seq_S k 0) at 2. rewrite map_app. cbn [map]. rewrite last_last.
  cbn [Nat.add].
  rewrite advance_nth. cbn [Nat.add gbm_price].
  replace (S k - 1)%nat with k by lia. reflexivity.
Qed.

Lemma gbm_fold_unroll (S_0 mu sigma : R) (t : list R) (g : rng) (n : nat) :
  forall k : nat,
    fold_left (gbm_step mu sigma t) (seq (S k) n)
      (map (gbm_price S_0 mu sigma t g) (seq 0 (S k)), advance k g)
    = (map (gbm_price S_0 mu sigma t g) (seq 0 (S k + n)), advance (k + n) g).
Proof.
  induction n as [|n IH]; intros k.
  - cbn [seq fold_left]. rewrite !Nat.add_0_r. reflexivity.
  - change (seq (S k) (S n)) with (S k :: seq (S (S k)) n).
    cbn [fold_left]. rewrite gbm_step_unroll, IH.
    replace (S (S k) + n)%nat with (S k + S n)%nat by lia.
    replace (k + S n)%nat with (S k + n)%nat by lia. reflexivity.
Qed.

Lemma gbm_path_unroll (S_0 mu sigma : R) (t : list R) (g : rng) :
  gbm_path S_0 mu sigma t g
  = (map (gbm_price S_0 mu sigma t g) (seq 0 (Nat.max (length t) 1)),
     advance (length t - 1) g).
Proof.
  unfold gbm_path, Py.range.
  change ([S_0], g)
    with (map (gbm_price S_0 mu sigma t g) (seq 0 1), advance 0 g).
  rewrite gbm_fold_unroll. f_equal. f_equal. f_equal. lia.
Qed.

Lemma gbm_price_ext (S_0 mu sigma : R) (t : list R) (g g' : rng) (i : nat) :
  (forall k : nat, (k < i)%nat -> g k = g' k) ->
  gbm_price S_0 mu sigma t g i = gbm_price S_0 mu sigma t g' i.
Proof.
  induction i as [|i IH]; intros H; [reflexivity|].
  cbn [gbm_price]. rewrite IH by (intros k Hk; apply H; lia).
  rewrite (H i) by lia. reflexivity.
Qed.


Lemma gbm_price_scale (c S_0 mu sigma : R) (t : list R) (g : rng) (i : nat) :
  gbm_price (c * S_0) mu sigma t g i = c * gbm_price S_0 mu sigma t g i.
Proof.
  induction i as [|i IH]; [reflexivity|].
  cbn [gbm_price]. rewrite IH. ring.
Qed.

Lemma gbm_price_still_vol (S_0 mu : R) (t : list R) (g : rng) (i : nat) :
  gbm_price S_0 mu 0 t g i = S_0 * exp (mu * (nth i t 0 - nth 0 t 0)).
Proof.
  induction i as [|i IH]; cbn [gbm_price].
  - replace (mu * (nth 0 t 0 - nth 0 t 0)) with 0 by ring.
    rewrite exp_0. ring.
  - rewrite IH, Rmult_assoc, <- exp_plus. f_equal. f_equal. cbn [pow]. field.
Qed.

Lemma nth_map_seq_lt (f : nat -> R) (n i : nat) :
  (i < n)%nat -> nth i (map f (seq 0 n)) 0 = f i.
Proof.
  intros Hi.
  rewrite (nth_indep _ 0 (f O)) by (rewrite length_map, length_seq; exact Hi).
  rewrite map_nth, seq_nth by exact Hi. reflexivity.
Qed.

Lemma gbm_path_ext (S_0 mu sigma : R) (t : list R) (g g' : rng) :
  (forall k : nat, (k < length t - 1)%nat -> g k = g' k) ->
  fst (gbm_path S_0 mu sigma t g) = fst (gbm_path S_0 mu sigma t g').
Proof.
  intros H. rewrite !gbm_path_unroll. cbn [fst].
  apply map_ext_in. intros i Hi. apply in_seq in Hi.
  apply gbm_price_ext. intros k Hk. apply H. lia.
Qed.



(** X2 -- With a volatility of 0, on a grid that does not decrease, the
    price at grid index [i] is [S0 * exp(mu * (t[i] - t[0]))], whatever the
    draws. *)
Theorem zero_volatility_path_is_drift :
  forall (S_0 mu : R) (t : list R) (g : rng) (i : nat),
    (forall k : nat, (S k < length t)%nat -> nth k t 0 <= nth (S k) t 0) ->
    (i < length t)%nat ->
    nth i (fst (gbm_path S_0 mu 0 t g)) 0
    = S_0 * exp (mu * (nth i t 0 - nth 0 t 0)).
Proof.
  intros S_0 mu t g i _ Hi. rewrite gbm_path_unroll. cbn [fst].
  rewrite nth_map_seq_lt by lia. apply gbm_price_still_vol.
Qed.

Lemma zero_volatility_path_is_drift_witness :
  nth 2 (fst (gbm_path 100 (1 / 20) 0 [0; 1 / 4; 1 / 2] (fun _ => -1))) 0
  = 100 * exp (1 / 20 * (nth 2 [0; 1 / 4; 1 / 2] 0 - nth 0 [0; 1 / 4; 1 / 2] 0)).
Proof.
  apply (zero_volatility_path_is_drift 100 (1 / 20) [0; 1 / 4; 1 / 2]
           (fun _ => -1) 2).
  - intros [|[|k]] Hk; cbn in *; try lra; lia.
  - cbn. lia.
Defined.

Lemma path_scales_with_initial_price_aux (c S_0 mu sigma : R) (t : list R)
  (g : rng) :
  fst (gbm_path (c * S_0) mu sigma t g)
  = map (Rmult c) (fst (gbm_path S_0 mu sigma t g)).
Proof.
  rewrite !gbm_path_unroll. cbn [fst].
  rewrite map_map. apply map_ext. intros i. apply gbm_price_scale.
Qed.

(** X3 -- The path is homogeneous in the initial price: with the same grid,
    parameters and draws, starting from [c * S0] multiplies every price by
    [c]. *)
Theorem path_scales_with_initial_price :
  forall (c S_0 mu sigma : R) (t : list R) (g : rng),
    fst (gbm_path (c * S_0) mu sigma t g)
    = map (Rmult c) (fst (gbm_path S_0 mu sigma t g)).
Proof. intros. apply path_scales_with_initial_price_aux. Qed.

(** X4 -- A path reads one draw per grid step after the first: it is the
    same for two generators that agree on their first [len(grid) - 1]
    draws, and it leaves the generator at the draw of index
    [len(grid) - 1]. *)
Theorem path_reads_one_draw_per_step :
  forall (S_0 mu sigma : R) (t : list R) (g g' : rng),
    (forall k : nat, (k < length t - 1)%nat -> g k = g' k) ->
    fst (gbm_path S_0 mu sigma t g) = fst (gbm_path S_0 mu sigma t g')
    /\ forall n : nat,
        snd (gbm_path S_0 mu sigma t g) n = g (n + (length t - 1))%nat.
Proof.
  intros S_0 mu sigma t g g' H. split; [apply gbm_path_ext, H|].
  intros n. rewrite gbm_path_unroll. cbn [snd]. apply advance_nth.
Qed.

Lemma path_reads_one_draw_per_step_witness :
  fst (gbm_path 100 0 (1 / 5) [0; 1 / 4; 1 / 2]
         (fun k => if (k <? 2)%nat then 1 else 0))
  = fst (gbm_path 100 0 (1 / 5) [0; 1 / 4; 1 / 2] (fun _ => 1))
  /\ forall n : nat,
      snd (gbm_path 100 0 (1 / 5) [0; 1 / 4; 1 / 2]
             (fun k => if (k <? 2)%nat then 1 else 0)) n
      = (fun k => if (k <? 2)%nat then 1 else 0)
          (n + (length [0; 1 / 4; 1 / 2] - 1))%nat.
Proof.
  apply (path_reads_one_draw_per_step 100 0 (1 / 5) [0; 1 / 4; 1 / 2]
           (fun k => if (k <? 2)%nat then 1 else 0) (fun _ => 1)).
  intros k Hk. cbn in Hk. destruct k as [|[|k]]; [reflexivity | reflexivity | lia].
Defined.

(** ** The Vanilla engine *)

Lemma sum_scale (c : R) (l : list R) :
  Np.sum (map (Rmult c) l) = c * Np.sum l.
Proof.
  unfold Np.sum. induction l as [|x l IH]; cbn [map fold_right].
  - ring.
  - rewrite IH. ring.
Qed.

Lemma mean_scale (c : R) (l : list R) :
  Np.mean (map (Rmult c) l) = c * Np.mean l.
Proof. unfold Np.mean. rewrite sum_scale, length_map. unfold Rdiv. ring. Qed.

Lemma ratio_scale (c a b : R) : c <> 0 -> (c * a) / (c * b) = a / b.
Proof.
  intros Hc. unfold Rdiv. rewrite Rinv_mult.
  replace (c * a * (/ c * / b)) with (c * / c * (a * / b)) by ring.
  rewrite Rinv_r by exact Hc. ring.
Qed.

Lemma vanilla_payoff_scale (self : Vanilla.McSimul) (c : R) (S : list R) :
  c <> 0 ->
  Vanilla.calculate_payoff self (map (Rmult c) S)
  = Vanilla.calculate_payoff self S.
Proof.
  intros Hc. unfold Vanilla.calculate_payoff.
  rewrite skipn_map, firstn_map, !mean_scale, ratio_scale by exact Hc.
  reflexivity.
Qed.

Lemma Forall_repeat_pos (x : R) (n : nat) :
  0 < x -> Forall (fun price => 0 < price) (repeat x n).
Proof.
  intros Hx. apply Forall_forall. intros y Hy. apply repeat_spec in Hy.
  subst y. exact Hx.
Qed.

(** X5 -- The Vanilla payoff of a trajectory of more than 61 positive
    prices does not change when every price is multiplied by one factor
    [c > 0]: it is a ratio of two averages of the same trajectory. *)
Theorem vanilla_payoff_ignores_scale :
  forall (self : Vanilla.McSimul) (c : R) (stock_prices : list R),
    0 < c -> (61 < length stock_prices)%nat ->
    Forall (fun price => 0 < price) stock_prices ->
    Vanilla.calculate_payoff self (map (Rmult c) stock_prices)
    = Vanilla.calculate_payoff self stock_prices.
Proof. intros self c S Hc _ _. apply vanilla_payoff_scale. lra. Qed.

Lemma vanilla_payoff_ignores_scale_witness :
  Vanilla.calculate_payoff scenario_A (map (Rmult 3) spike_at_60)
  = Vanilla.calculate_payoff scenario_A spike_at_60.
Proof.
  apply vanilla_payoff_ignores_scale.
  - lra.
  - cbn. lia.
  - unfold spike_at_60. apply Forall_app. split.
    + apply Forall_repeat_pos. lra.
    + apply Forall_app. split.
      * repeat constructor. lra.
      * apply Forall_repeat_pos. lra.
Defined.

Lemma vanilla_trials_blocks (self : Vanilla.McSimul) (t : list R) (n : nat) :
  forall (payoffs : list R) (g : rng),
    fst (Vanilla.trials self t n payoffs g)
    = payoffs
      ++ map (fun k =>
                Vanilla.calculate_payoff self
                  (fst (Vanilla.simulate_gbm self t
                          (advance (k * (length t - 1)) g))))
             (seq 0 n).
Proof.
  induction n as [|n IH]; intros payoffs g.
  - cbn [Vanilla.trials fst seq map]. rewrite app_nil_r. reflexivity.
  - cbn [Vanilla.trials]. unfold Vanilla.simulate_gbm at 1.
    rewrite gbm_path_unroll, IH, <- app_assoc. f_equal.
    cbn [seq map app Nat.mul advance]. f_equal.
    + unfold Vanilla.simulate_gbm. rewrite gbm_path_unroll. reflexivity.
    + rewrite <- seq_shift, map_map. apply map_ext. intros k.
      f_equal. unfold Vanilla.simulate_gbm. apply gbm_path_ext.
      intros j _. rewrite advance_add. reflexivity.
Qed.

(** X6 -- Trial [k] of [simulate_monte_carlo] (0-based) is computed from the
    draws of index [k * (len(grid) - 1)] onwards, and from nothing else: the
    payoff series is the list, over [k < numSimulations], of the payoff of
    the path simulated from the generator advanced by that many draws. *)
Theorem vanilla_trials_read_their_own_draws :
  forall (self : Vanilla.McSimul) (g : rng),
    let time_vector := Vanilla.generate_time_vector self in
    fst (Vanilla.simulate_monte_carlo self g)
    = map (fun k =>
             Vanilla.calculate_payoff self
               (fst (Vanilla.simulate_gbm self time_vector
                       (advance (k * (length time_vector - 1)) g))))
          (seq 0 (Z.to_nat (Vanilla.num_simulations self))).
Proof.
  intros self g tv. unfold Vanilla.simulate_monte_carlo.
  rewrite vanilla_trials_blocks. reflexivity.
Qed.

Lemma vanilla_path_with_price (self : Vanilla.McSimul) (S0 : R)
  (t : list R) (g : rng) :
  Vanilla.initial_stock_price self <> 0 ->
  fst (Vanilla.simulate_gbm (vanilla_with_price self S0) t g)
  = map (Rmult (S0 / Vanilla.initial_stock_price self))
        (fst (Vanilla.simulate_gbm self t g)).
Proof.
  intros H. unfold Vanilla.simulate_gbm.
  rewrite <- path_scales_with_initial_price_aux.
  cbn [Vanilla.initial_stock_price Vanilla.drift Vanilla.volatility
       vanilla_with_price].
  f_equal. f_equal. field. exact H.
Qed.

(** X7 -- The Vanilla payoff series does not depend on the initial price:
    with the same other parameters and the same draws, two positive initial
    prices give the same payoffs, trial by trial. *)
Theorem vanilla_payoffs_ignore_initial_price :
  forall (self : Vanilla.McSimul) (S0 : R) (g : rng),
    0 < Vanilla.initial_stock_price self -> 0 < S0 ->
    fst (Vanilla.simulate_monte_carlo (vanilla_with_price self S0) g)
    = fst (Vanilla.simulate_monte_carlo self g).
Proof.
  intros self S0 g Hself HS0. unfold Vanilla.simulate_monte_carlo.
  rewrite !vanilla_trials_blocks. cbn [app].
  change (Vanilla.generate_time_vector (vanilla_with_price self S0))
    with (Vanilla.generate_time_vector self).
  change (Vanilla.num_simulations (vanilla_with_price self S0))
    with (Vanilla.num_simulations self).
  apply map_ext. intros k.
  rewrite vanilla_path_with_price by lra.
  unfold Vanilla.calculate_payoff.
  rewrite skipn_map, firstn_map, !mean_scale, ratio_scale; [reflexivity|].
  apply Rmult_integral_contrapositive_currified; [lra|].
  apply Rinv_neq_0_compat. lra.
Qed.

Lemma vanilla_payoffs_ignore_initial_price_witness :
  fst (Vanilla.simulate_monte_carlo
         (vanilla_with_price (vanilla_level (9 / 10)) 50) (fun _ => 1))
  = fst (Vanilla.simulate_monte_carlo (vanilla_level (9 / 10)) (fun _ => 1)).
Proof.
  apply vanilla_payoffs_ignore_initial_price; cbn; lra.
Defined.

(** ** The convergence series *)

Lemma convergence_entries (norm_ppf : R -> R) (c : R) (payoffs : list R) :
  convergence norm_ppf c payoffs
  = (map (mean_at payoffs) (seq 0 (length payoffs)),
     map (lower_at (norm_ppf c) payoffs) (seq 0 (length payoffs)),
     map (upper_at (norm_ppf c) payoffs) (seq 0 (length payoffs))).
Proof. unfold convergence. rewrite convergence_loop_maps. reflexivity. Qed.

(** X8 -- At every index the running mean is the midpoint of the two
    bounds, and the band [upper - lower] is 0 at the first index and
    [2 * z * std / sqrt(i)] at the 0-based index [i > 0], [std] being
    [np.std] of the first [i + 1] payoffs and [z] the quantile at the
    confidence level. *)
Theorem bounds_centred_on_mean :
  forall (norm_ppf : R -> R) (c : R) (payoffs M lb ub : list R) (i : nat),
    convergence norm_ppf c payoffs = (M, lb, ub) ->
    (i < length payoffs)%nat ->
    nth i ub 0 - nth i M 0 = nth i M 0 - nth i lb 0
    /\ nth i ub 0 - nth i lb 0
       = (if (i =? 0)%nat then 0
          else 2 * norm_ppf c * Np.std (firstn (i + 1) payoffs)
               / sqrt (INR i)).
Proof.
  intros norm_ppf c payoffs M lb ub i Hrun Hi.
  rewrite convergence_entries in Hrun. injection Hrun as <- <- <-.
  rewrite !nth_map_seq_lt by exact Hi.
  unfold lower_at, upper_at, std_at.
  destruct i as [|i]; cbn [Nat.ltb Nat.leb Nat.eqb].
  - split; ring.
  - split; unfold Rdiv; ring.
Qed.

Lemma bounds_centred_on_mean_witness :
  nth 1 (snd (convergence centred (3 / 4) [0; 2])) 0
  - nth 1 (fst (fst (convergence centred (3 / 4) [0; 2]))) 0
  = nth 1 (fst (fst (convergence centred (3 / 4) [0; 2]))) 0
    - nth 1 (snd (fst (convergence centred (3 / 4) [0; 2]))) 0.
Proof.
  apply (bounds_centred_on_mean centred (3 / 4) [0; 2] _ _ _ 1).
  - reflexivity.
  - cbn. lia.
Defined.

Lemma firstn_map_seq (f : nat -> R) (n m : nat) :
  firstn n (map f (seq 0 (n + m))) = map f (seq 0 n).
Proof.
  rewrite firstn_map, seq_app, firstn_app, length_seq, Nat.sub_diag.
  cbn [firstn]. rewrite app_nil_r.
  rewrite <- (length_seq n 0) at 1. rewrite firstn_all. reflexivity.
Qed.

Lemma prefix_of_app (P Q : list R) (i : nat) :
  (i < length P)%nat -> firstn (i + 1) (P ++ Q) = firstn (i + 1) P.
Proof.
  intros Hi. rewrite firstn_app.
  replace (i + 1 - length P)%nat with 0%nat by lia.
  cbn [firstn]. apply app_nil_r.
Qed.

(** X9 -- The estimator is incremental: the series computed for the payoffs
    [P ++ Q], cut to their first [len(P)] entries, are the series computed
    for [P] alone.  Later payoffs never change earlier means or bounds. *)
Theorem convergence_prefix_stable :
  forall (norm_ppf : R -> R) (c : R) (P Q : list R),
    let '(M, lb, ub) := convergence norm_ppf c P in
    let '(M', lb', ub') := convergence norm_ppf c (P ++ Q) in
    firstn (length P) M' = M
    /\ firstn (length P) lb' = lb
    /\ firstn (length P) ub' = ub.
Proof.
  intros norm_ppf c P Q. rewrite !convergence_entries, length_app.
  rewrite !firstn_map_seq.
  assert (Hm : forall i : nat, In i (seq 0 (length P)) ->
               mean_at (P ++ Q) i = mean_at P i).
  { intros i Hi. apply in_seq in Hi. unfold mean_at.
    rewrite prefix_of_app by lia. reflexivity. }
  assert (Hs : forall i : nat, In i (seq 0 (length P)) ->
               std_at (P ++ Q) i = std_at P i).
  { intros i Hi. apply in_seq in Hi. unfold std_at.
    rewrite prefix_of_app by lia. reflexivity. }
  repeat split; apply map_ext_in; intros i Hi;
    unfold lower_at, upper_at; rewrite ?Hm, ?Hs by exact Hi; reflexivity.
Qed.

(** X10 -- For a payoff series of [N >= 1] entries the reported final price
    is the mean of all payoffs, and the reported error is 0 for [N = 1] and
    the whole band [2 * z * np.std(payoffs) / sqrt(N - 1)] for [N > 1]: its
    sign is that of the quantile [z]. *)
Theorem final_report_is_mean_and_band :
  forall (norm_ppf : R -> R) (c : R) (payoffs : list R),
    payoffs <> [] ->
    final_report (convergence norm_ppf c payoffs)
    = Py.Ok (Np.mean payoffs,
             if (length payoffs =? 1)%nat then 0
             else 2 * norm_ppf c * Np.std payoffs
                  / sqrt (INR (length payoffs - 1))).
Proof.
  intros norm_ppf c payoffs Hne. rewrite convergence_entries.
  destruct (exists_last Hne) as [P [p HP]].
  assert (Hlen : length payoffs = S (length P)).
  { rewrite HP, length_app. cbn [length]. lia. }
  rewrite Hlen. unfold final_report.
  rewrite seq_S, !map_app. cbn [map Nat.add].
  unfold Py.last_item. rewrite !rev_app_distr. cbn [rev app Py.bind].
  unfold lower_at, upper_at, mean_at, std_at.
  replace (length P + 1)%nat with (length payoffs) by lia.
  rewrite firstn_all. cbn [Nat.sub]. rewrite Nat.sub_0_r.
  f_equal. f_equal.
  destruct (length P) as [|n]; cbn [Nat.ltb Nat.leb Nat.eqb].
  - ring.
  - unfold Rdiv. ring.
Qed.

Lemma final_report_is_mean_and_band_witness :
  final_report (convergence centred (3 / 4) [0; 2])
  = Py.Ok (Np.mean [0; 2],
           if (length [0; 2] =? 1)%nat then 0
           else 2 * centred (3 / 4) * Np.std [0; 2]
                / sqrt (INR (length [0; 2] - 1))).
Proof. apply final_report_is_mean_and_band. discriminate. Defined.







(** ** The Tunnel grid and payoff *)

(** X12 -- For an integer maturity [m >= 0] the Tunnel grid has [4 * m]
    points, the point of index [k] is [k / 4], and every point is below the
    maturity: the last observation is a quarter before maturity. *)
Theorem tunnel_grid_quarterly :
  forall (self : Tunnel.TunnelOptionPricer) (m : Z) (k : nat),
    Tunnel.maturity self = IZR m -> (0 <= m)%Z ->
    (k < Z.to_nat (4 * m))%nat ->
    length (Tunnel.generate_t self) = Z.to_nat (4 * m)
    /\ nth k (Tunnel.generate_t self) 0 = INR k / 4
    /\ nth k (Tunnel.generate_t self) 0 < Tunnel.maturity self.
Proof.
  intros self m k Hm Hpos Hk.
  assert (Hlen : length (Tunnel.generate_t self) = Z.to_nat (4 * m)).
  { unfold Tunnel.generate_t. apply arange_length.
    rewrite Hm, mult_IZR. field. }
  assert (Hnth : nth k (Tunnel.generate_t self) 0 = INR k / 4).
  { unfold Tunnel.generate_t, Np.arange in *. rewrite length_map, length_seq in Hlen.
    rewrite Hlen, nth_map_seq_lt by exact Hk. field. }
  split; [exact Hlen | split; [exact Hnth|]].
  rewrite Hnth, Hm.
  assert (Hlt : INR k < IZR (4 * m)).
  { rewrite <- (Z2Nat.id (4 * m)) by lia. rewrite <- INR_IZR_INZ.
    apply lt_INR, Hk. }
  rewrite mult_IZR in Hlt. lra.
Qed.

Lemma tunnel_grid_quarterly_witness :
  length (Tunnel.generate_t tunnel_flat) = Z.to_nat (4 * 1)
  /\ nth 3 (Tunnel.generate_t tunnel_flat) 0 = INR 3 / 4
  /\ nth 3 (Tunnel.generate_t tunnel_flat) 0 < Tunnel.maturity tunnel_flat.
Proof.
  apply (tunnel_grid_quarterly tunnel_flat 1 3).
  - reflexivity.
  - lia.
  - cbn. lia.
Defined.

Lemma tunnel_walk_raise (self : Tunnel.TunnelOptionPricer) (e : Py.exn)
  (interior : list R) :
  fold_left (Tunnel.payoff_step self) interior (Py.Raise e) = Py.Raise e.
Proof. induction interior as [|i interior IH]; [reflexivity | exact IH]. Qed.

Lemma tunnel_walk_short_K (self : Tunnel.TunnelOptionPricer)
  (interior : list R) (acc : R) :
  (length (Tunnel.K self) < 2)%nat -> interior <> [] ->
  fold_left (Tunnel.payoff_step self) interior (Py.Ok acc)
  = Py.Raise Py.IndexError.
Proof.
  intros HK Hne. destruct interior as [|i interior]; [congruence|].
  cbn [fold_left]. unfold Tunnel.payoff_step at 2.
  destruct (Tunnel.K self) as [|k0 [|k1 rest]]; cbn [length] in HK;
    [| |lia]; cbn [Py.bind Py.getitem nth_error]; apply tunnel_walk_raise.
Qed.

(** X13 -- For an initial price that is not 0, the Tunnel payoff raises
    exactly when the trajectory is empty or fewer than two strikes are
    given, and the error is then an [IndexError]; otherwise it returns a
    number. *)
Theorem tunnel_payoff_raises_on_short_input :
  forall (self : Tunnel.TunnelOptionPricer) (S : list R),
    Tunnel.S_0 self <> 0 ->
    match Tunnel.payoff self S with
    | Py.Raise e =>
        e = Py.IndexError /\ (S = [] \/ (length (Tunnel.K self) < 2)%nat)
    | Py.Ok _ => S <> [] /\ (2 <= length (Tunnel.K self))%nat
    end.
Proof.
  intros self S _. unfold Tunnel.payoff.
  destruct S as [|s0 S].
  - cbn. split; [reflexivity | left; reflexivity].
  - destruct (Tunnel.K self) as [|k0 [|k1 rest]] eqn:HK.
    + destruct (Py.slice 1 (length (s0 :: S) - 1) (s0 :: S)) as [|i l] eqn:Hs.
      * cbn [fold_left Py.bind].
        rewrite (last_item_nonempty (s0 :: S) 0) by discriminate.
        cbn. split; [reflexivity | right; lia].
      * rewrite tunnel_walk_short_K by (rewrite ?HK; cbn; (lia || discriminate)).
        cbn. split; [reflexivity | right; lia].
    + destruct (Py.slice 1 (length (s0 :: S) - 1) (s0 :: S)) as [|i l] eqn:Hs.
      * cbn [fold_left Py.bind].
        rewrite (last_item_nonempty (s0 :: S) 0) by discriminate.
        cbn. split; [reflexivity | right; lia].
      * rewrite tunnel_walk_short_K by (rewrite ?HK; cbn; (lia || discriminate)).
        cbn. split; [reflexivity | right; lia].
    + destruct (tunnel_walk_total self k0 k1 rest HK
                  (Py.slice 1 (length (s0 :: S) - 1) (s0 :: S)) 0) as [p ->].
      rewrite (last_item_nonempty (s0 :: S) 0) by discriminate.
      cbn. split; [discriminate | lia].
Qed.

Lemma tunnel_payoff_raises_on_short_input_witness :
  match Tunnel.payoff tunnel_one_strike [100; 120] with
  | Py.Raise e =>
      e = Py.IndexError
      /\ ([100; 120] = [] \/ (length (Tunnel.K tunnel_one_strike) < 2)%nat)
  | Py.Ok _ =>
      [100; 120] <> [] /\ (2 <= length (Tunnel.K tunnel_one_strike))%nat
  end.
Proof.
  apply (tunnel_payoff_raises_on_short_input tunnel_one_strike [100; 120]).
  cbn. lra.
Defined.

Lemma slice_interior (s0 sT : R) (X : list R) :
  Py.slice 1 (length (s0 :: X ++ [sT]) - 1) (s0 :: X ++ [sT]) = X.
Proof.
  unfold Py.slice. cbn [length skipn]. rewrite length_app. cbn [length].
  replace (S (length X + 1) - 1 - 1)%nat with (length X) by lia.
  rewrite firstn_app, firstn_all, Nat.sub_diag. cbn [firstn].
  apply app_nil_r.
Qed.

Lemma tunnel_payoff_shape (self : Tunnel.TunnelOptionPricer) (k0 k1 : R)
  (rest : list R) (s0 sT : R) (X : list R) :
  Tunnel.K self = k0 :: k1 :: rest ->
  Tunnel.payoff self (s0 :: X ++ [sT])
  = (p <- fold_left (Tunnel.payoff_step self) X (Py.Ok 0);;
     Py.Ok (p + Rmax (sT / Tunnel.S_0 self - k1) 0)).
Proof.
  intros HK. unfold Tunnel.payoff. rewrite slice_interior.
  destruct (tunnel_walk_total self k0 k1 rest HK X 0) as [p ->].
  rewrite (last_item_nonempty (s0 :: X ++ [sT]) 0) by discriminate.
  change (s0 :: X ++ [sT]) with ((s0 :: X) ++ [sT]). rewrite last_last, HK.
  reflexivity.
Qed.

(** X14 -- An interior observation that is neither inside the corridor nor
    above the upper strike (an observation equal to the upper strike
    included) erases what was accumulated: the payoff is that of the
    trajectory without the interior observations up to and including
    it. *)
Theorem tunnel_reset_forgets_earlier :
  forall (self : Tunnel.TunnelOptionPricer) (k0 k1 s0 v sT : R)
         (pre post : list R),
    Tunnel.K self = [k0; k1] -> Tunnel.S_0 self <> 0 ->
    ~ (k0 < v < k1) -> ~ (v > k1) ->
    Tunnel.payoff self (s0 :: (pre ++ v :: post) ++ [sT])
    = Tunnel.payoff self (s0 :: post ++ [sT]).
Proof.
  intros self k0 k1 s0 v sT pre post HK _ Hin Hup.
  rewrite !(tunnel_payoff_shape self k0 k1 [] _ _ _ HK).
  rewrite fold_left_app.
  destruct (tunnel_walk_total self k0 k1 [] HK pre 0) as [p ->].
  cbn [fold_left]. unfold Tunnel.payoff_step at 2. rewrite HK.
  cbn [Py.bind Py.getitem nth_error].
  destruct (Rlt_dec k0 v), (Rlt_dec v k1), (Rgt_dec v k1);
    try reflexivity; exfalso; (apply Hup; assumption) || (apply Hin; lra).
Qed.

Lemma tunnel_reset_forgets_earlier_witness :
  Tunnel.payoff tunnel_coupons (100 :: ([95; 120] ++ 110 :: [105]) ++ [130])
  = Tunnel.payoff tunnel_coupons (100 :: [105] ++ [130]).
Proof.
  apply (tunnel_reset_forgets_earlier tunnel_coupons 90 110).
  - reflexivity.
  - cbn. lra.
  - lra.
  - lra.
Defined.

Lemma tunnel_walk_inside (self : Tunnel.TunnelOptionPricer) (k0 k1 : R)
  (interior : list R) :
  Tunnel.K self = [k0; k1] ->
  Forall (fun v => k0 < v < k1) interior ->
  forall acc : R,
    fold_left (Tunnel.payoff_step self) interior (Py.Ok acc)
    = Py.Ok (acc + Tunnel.alpha self * Np.sum interior / Tunnel.S_0 self).
Proof.
  intros HK. induction 1 as [|v l Hv _ IH]; intros acc.
  - cbn. f_equal. unfold Np.sum. cbn. unfold Rdiv. ring.
  - cbn [fold_left]. unfold Tunnel.payoff_step at 2. rewrite HK.
    cbn [Py.bind Py.getitem nth_error].
    destruct (Rlt_dec k0 v); [|lra]. destruct (Rlt_dec v k1); [|lra].
    rewrite IH. f_equal. unfold Np.sum. cbn [fold_right]. unfold Rdiv. ring.
Qed.

Lemma tunnel_walk_above (self : Tunnel.TunnelOptionPricer) (k0 k1 : R)
  (interior : list R) :
  Tunnel.K self = [k0; k1] ->
  Forall (fun v => k1 < v) interior ->
  forall acc : R,
    fold_left (Tunnel.payoff_step self) interior (Py.Ok acc)
    = Py.Ok (acc + Tunnel.beta self * Np.sum interior / Tunnel.S_0 self).
Proof.
  intros HK. induction 1 as [|v l Hv _ IH]; intros acc.
  - cbn. f_equal. unfold Np.sum. cbn. unfold Rdiv. ring.
  - cbn [fold_left]. unfold Tunnel.payoff_step at 2. rewrite HK.
    cbn [Py.bind Py.getitem nth_error].
    assert (Hgt : v > k1) by lra.
    destruct (Rlt_dec k0 v), (Rlt_dec v k1), (Rgt_dec v k1); try lra;
      rewrite IH; f_equal; unfold Np.sum; cbn [fold_right]; unfold Rdiv; ring.
Qed.

(** X15 -- Without a reset the coupons add up: when every interior
    observation is strictly inside the corridor the payoff is
    [alpha * sum(interior) / S0] plus the terminal call, and when every
    interior observation is above the upper strike it is
    [beta * sum(interior) / S0] plus the terminal call.  The corridor is
    tested on the prices themselves, the coupon is paid on price over
    [S0]. *)
Theorem tunnel_coupons_add_up :
  forall (self : Tunnel.TunnelOptionPricer) (k0 k1 s0 sT : R)
         (inside above : list R),
    Tunnel.K self = [k0; k1] -> Tunnel.S_0 self <> 0 ->
    Forall (fun v => k0 < v < k1) inside ->
    Forall (fun v => k1 < v) above ->
    Tunnel.payoff self (s0 :: inside ++ [sT])
    = Py.Ok (Tunnel.alpha self * Np.sum inside / Tunnel.S_0 self
             + Rmax (sT / Tunnel.S_0 self - k1) 0)
    /\ Tunnel.payoff self (s0 :: above ++ [sT])
       = Py.Ok (Tunnel.beta self * Np.sum above / Tunnel.S_0 self
                + Rmax (sT / Tunnel.S_0 self - k1) 0).
Proof.
  intros self k0 k1 s0 sT inside above HK _ Hin Hab.
  rewrite !(tunnel_payoff_shape self k0 k1 [] _ _ _ HK).
  rewrite (tunnel_walk_inside self k0 k1 inside HK Hin).
  rewrite (tunnel_walk_above self k0 k1 above HK Hab).
  cbn [Py.bind]. split; f_equal; ring.
Qed.

Lemma tunnel_coupons_add_up_witness :
  Tunnel.payoff tunnel_coupons (100 :: [95; 105] ++ [130])
  = Py.Ok (Tunnel.alpha tunnel_coupons * Np.sum [95; 105]
           / Tunnel.S_0 tunnel_coupons
           + Rmax (130 / Tunnel.S_0 tunnel_coupons - 110) 0)
  /\ Tunnel.payoff tunnel_coupons (100 :: [120; 115] ++ [130])
     = Py.Ok (Tunnel.beta tunnel_coupons * Np.sum [120; 115]
              / Tunnel.S_0 tunnel_coupons
              + Rmax (130 / Tunnel.S_0 tunnel_coupons - 110) 0).
Proof.
  apply (tunnel_coupons_add_up tunnel_coupons 90 110).
  - reflexivity.
  - cbn. lra.
  - repeat constructor; lra.
  - repeat constructor; lra.
Defined.

(** X16 -- With the lower strike at or above the upper strike no observation
    is inside the corridor: the first coupon rate [alpha] has no effect on
    the payoff. *)
Theorem tunnel_crossed_strikes_ignore_alpha :
  forall (self : Tunnel.TunnelOptionPricer) (k0 k1 a : R) (S : list R),
    Tunnel.K self = [k0; k1] -> Tunnel.S_0 self <> 0 -> k1 <= k0 ->
    Tunnel.payoff (tunnel_with_alpha self a) S = Tunnel.payoff self S.
Proof.
  intros self k0 k1 a S HK _ Hle. unfold Tunnel.payoff.
  change (Tunnel.K (tunnel_with_alpha self a)) with (Tunnel.K self).
  change (Tunnel.S_0 (tunnel_with_alpha self a)) with (Tunnel.S_0 self).
  replace (fold_left (Tunnel.payoff_step (tunnel_with_alpha self a))
             (Py.slice 1 (length S - 1) S) (Py.Ok 0))
    with (fold_left (Tunnel.payoff_step self)
            (Py.slice 1 (length S - 1) S) (Py.Ok 0)); [reflexivity|].
  generalize (Py.slice 1 (length S - 1) S) as interior.
  generalize (@Py.Ok R 0) as acc. intros acc interior. revert acc.
  induction interior as [|v l IH]; intros acc; [reflexivity|].
  cbn [fold_left]. rewrite IH. f_equal.
  unfold Tunnel.payoff_step.
  change (Tunnel.K (tunnel_with_alpha self a)) with (Tunnel.K self).
  rewrite HK. destruct acc as [p|e]; [|reflexivity].
  cbn [Py.bind Py.getitem nth_error].
  destruct (Rlt_dec k0 v), (Rlt_dec v k1); try reflexivity. lra.
Qed.

Lemma tunnel_crossed_strikes_ignore_alpha_witness :
  Tunnel.payoff (tunnel_with_alpha tunnel_crossed 7) [100; 95; 120; 105]
  = Tunnel.payoff tunnel_crossed [100; 95; 120; 105].
Proof.
  apply (tunnel_crossed_strikes_ignore_alpha tunnel_crossed 110 90).
  - reflexivity.
  - cbn. lra.
  - lra.
Defined.

(** ** The Napoleon payoff and engine *)

(** X17 -- On every trajectory of positive prices
    [calculate_option_payoff] returns the sum, over the blocks of 12
    consecutive returns (the last block may be shorter), of
    [max(fixed_coupon + min(block), floor)], multiplied by
    [len(stock_trajectory) // 12]. *)
Theorem napoleon_payoff_is_repeated_block_sum :
  forall (self : Napoleon.NapoleonOptionPricer) (stock_trajectory : list R),
    Forall (fun price => 0 < price) stock_trajectory ->
    Napoleon.calculate_option_payoff self stock_trajectory
    = INR (length stock_trajectory / 12)
      * Np.sum
          (map (fun block =>
                  Rmax (Napoleon.fixed_coupon self + Py.min_or 0 block)
                       (Napoleon.floor self))
               (Napoleon.monthly_returns_grouped
                  (Napoleon.monthly_returns stock_trajectory))).
Proof. intros self S _. apply napoleon_payoff_repeats_blocks. Qed.

Lemma napoleon_payoff_is_repeated_block_sum_witness :
  Napoleon.calculate_option_payoff napoleon_coupon (repeat 1 25)
  = INR (length (repeat 1 25) / 12)
    * Np.sum
        (map (fun block =>
                Rmax (Napoleon.fixed_coupon napoleon_coupon
                      + Py.min_or 0 block)
                     (Napoleon.floor napoleon_coupon))
             (Napoleon.monthly_returns_grouped
                (Napoleon.monthly_returns (repeat 1 25)))).
Proof.
  apply napoleon_payoff_is_repeated_block_sum.
  apply Forall_repeat_pos. lra.
Defined.

(** X18 -- A trajectory of fewer than 12 prices pays 0, whatever its
    returns, the coupon and the floor: the loop over the blocks is not
    entered. *)
Theorem napoleon_short_trajectory_pays_nothing :
  forall (self : Napoleon.NapoleonOptionPricer) (stock_trajectory : list R),
    (length stock_trajectory < 12)%nat ->
    Napoleon.calculate_option_payoff self stock_trajectory = 0.
Proof.
  intros self S H. rewrite napoleon_payoff_repeats_blocks.
  rewrite Nat.div_small by exact H. cbn [INR]. ring.
Qed.

Lemma napoleon_short_trajectory_pays_nothing_witness :
  Napoleon.calculate_option_payoff napoleon_coupon (repeat 1 11) = 0.
Proof. apply napoleon_short_trajectory_pays_nothing. cbn. lia. Defined.

Lemma nth_scale (c : R) (l : list R) (j : nat) :
  nth j (map (Rmult c) l) 0 = c * nth j l 0.
Proof.
  rewrite <- (Rmult_0_r c) at 1. apply (map_nth (Rmult c)).
Qed.

Lemma monthly_returns_scale (c : R) (S : list R) :
  c <> 0 ->
  Napoleon.monthly_returns (map (Rmult c) S) = Napoleon.monthly_returns S.
Proof.
  intros Hc. unfold Napoleon.monthly_returns. rewrite length_map.
  apply map_ext. intros j. rewrite !nth_scale, ratio_scale by exact Hc.
  reflexivity.
Qed.

Lemma napoleon_payoff_scale (self : Napoleon.NapoleonOptionPricer) (c : R)
  (S : list R) :
  c <> 0 ->
  Napoleon.calculate_option_payoff self (map (Rmult c) S)
  = Napoleon.calculate_option_payoff self S.
Proof.
  intros Hc. rewrite !napoleon_payoff_repeats_blocks. unfold each_block_once.
  rewrite monthly_returns_scale, length_map by exact Hc. reflexivity.
Qed.

(** X19 -- The Napoleon payoff of a trajectory of positive prices does not
    change when every price is multiplied by one factor [c > 0]: it is
    computed from the returns [S[j]/S[j-1] - 1] alone. *)
Theorem napoleon_payoff_ignores_scale :
  forall (self : Napoleon.NapoleonOptionPricer) (c : R)
         (stock_trajectory : list R),
    0 < c -> Forall (fun price => 0 < price) stock_trajectory ->
    Napoleon.calculate_option_payoff self (map (Rmult c) stock_trajectory)
    = Napoleon.calculate_option_payoff self stock_trajectory.
Proof. intros self c S Hc _. apply napoleon_payoff_scale. lra. Qed.

Lemma napoleon_payoff_ignores_scale_witness :
  Napoleon.calculate_option_payoff napoleon_deep_floor
    (map (Rmult 5) (2 :: repeat 1 11))
  = Napoleon.calculate_option_payoff napoleon_deep_floor (2 :: repeat 1 11).
Proof.
  apply napoleon_payoff_ignores_scale; [lra|].
  constructor; [lra | apply Forall_repeat_pos; lra].
Defined.

Lemma napoleon_trials_with_price (self : Napoleon.NapoleonOptionPricer)
  (S0 : R) (t : list R) (n : nat) :
  Napoleon.initial_stock_price self <> 0 -> S0 <> 0 ->
  forall (payoffs : list R) (g : rng),
    Napoleon.trials (napoleon_with_price self S0) t n payoffs g
    = Napoleon.trials self t n payoffs g.
Proof.
  intros Hself HS0. induction n as [|n IH]; intros payoffs g;
    [reflexivity|].
  cbn [Napoleon.trials].
  unfold Napoleon.simulate_geometric_brownian_motion.
  cbn [Napoleon.initial_stock_price Napoleon.drift Napoleon.volatility
       napoleon_with_price].
  rewrite !gbm_path_unroll, IH. f_equal. f_equal. f_equal.
  change (Napoleon.calculate_option_payoff (napoleon_with_price self S0))
    with (Napoleon.calculate_option_payoff self).
  replace (map (gbm_price S0 (Napoleon.drift self) (Napoleon.volatility self)
                  t g) (seq 0 (Nat.max (length t) 1)))
    with (map (Rmult (S0 / Napoleon.initial_stock_price self))
            (map (gbm_price (Napoleon.initial_stock_price self)
                    (Napoleon.drift self) (Napoleon.volatility self) t g)
               (seq 0 (Nat.max (length t) 1)))).
  - apply napoleon_payoff_scale.
    apply Rmult_integral_contrapositive_currified; [exact HS0|].
    apply Rinv_neq_0_compat, Hself.
  - rewrite map_map. apply map_ext. intros i.
    rewrite <- gbm_price_scale. f_equal. field. exact Hself.
Qed.

(** X20 -- The Napoleon payoff series does not depend on the initial price:
    with the same other parameters and the same draws, two positive initial
    prices give the same payoffs, trial by trial. *)
Theorem napoleon_payoffs_ignore_initial_price :
  forall (self : Napoleon.NapoleonOptionPricer) (S0 : R) (g : rng),
    0 < Napoleon.initial_stock_price self -> 0 < S0 ->
    fst (Napoleon.simulate_monte_carlo (napoleon_with_price self S0) g)
    = fst (Napoleon.simulate_monte_carlo self g).
Proof.
  intros self S0 g Hself HS0. unfold Napoleon.simulate_monte_carlo.
  change (Napoleon.generate_t (napoleon_with_price self S0))
    with (Napoleon.generate_t self).
  change (Napoleon.num_simulations (napoleon_with_price self S0))
    with (Napoleon.num_simulations self).
  rewrite napoleon_trials_with_price by lra. reflexivity.
Qed.

Lemma napoleon_payoffs_ignore_initial_price_witness :
  fst (Napoleon.simulate_monte_carlo
         (napoleon_with_price napoleon_deep_floor 50) (fun _ => 1))
  = fst (Napoleon.simulate_monte_carlo napoleon_deep_floor (fun _ => 1)).
Proof. apply napoleon_payoffs_ignore_initial_price; cbn; lra. Defined.

Lemma napoleon_grid_nth (self : Napoleon.NapoleonOptionPricer) (k : nat) :
  (k < length (Napoleon.generate_t self))%nat ->
  nth k (Napoleon.generate_t self) 0 = INR k.
Proof.
  unfold Napoleon.generate_t, Py.range. rewrite length_map, length_seq.
  intros Hk. apply nth_map_seq_lt. exact Hk.
Qed.

(** X21 -- The Napoleon grid counts trading days, so every step of the path
    has [dt = 1]: along the simulated path
    [S[i+1] = S[i] * exp((drift - volatility**2/2) + volatility * Z_i)],
    with no scaling of the daily step by 1/252. *)
Theorem napoleon_path_steps_by_one_day :
  forall (self : Napoleon.NapoleonOptionPricer) (g : rng) (i : nat),
    let time_vector := Napoleon.generate_t self in
    let S :=
      fst (Napoleon.simulate_geometric_brownian_motion self time_vector g) in
    (i + 1 < length time_vector)%nat ->
    nth (i + 1) S 0
    = nth i S 0
      * exp ((Napoleon.drift self - Napoleon.volatility self ^ 2 / 2)
             + Napoleon.volatility self * g i).
Proof.
  intros self g i tv S Hi. subst S.
  unfold Napoleon.simulate_geometric_brownian_motion.
  rewrite gbm_path_unroll. cbn [fst].
  rewrite !nth_map_seq_lt by lia.
  replace (i + 1)%nat with (Datatypes.S i) in * by lia. cbn [gbm_price].
  subst tv. rewrite !napoleon_grid_nth by lia.
  rewrite S_INR. replace (INR i + 1 - INR i) with 1 by ring.
  rewrite sqrt_1. f_equal. f_equal. ring.
Qed.

Lemma napoleon_coupon_grid_length :
  length (Napoleon.generate_t napoleon_coupon) = 25%nat.
Proof.
  unfold Napoleon.generate_t, Py.range. rewrite length_map, length_seq.
  rewrite <- (Int_part_spec (Napoleon.maturity napoleon_coupon * 252) 25)
    by (cbn; lra).
  reflexivity.
Qed.

Lemma napoleon_path_steps_by_one_day_witness :
  nth (3 + 1)
    (fst (Napoleon.simulate_geometric_brownian_motion napoleon_coupon
            (Napoleon.generate_t napoleon_coupon) (fun _ => 1))) 0
  = nth 3
      (fst (Napoleon.simulate_geometric_brownian_motion napoleon_coupon
              (Napoleon.generate_t napoleon_coupon) (fun _ => 1))) 0
    * exp ((Napoleon.drift napoleon_coupon
            - Napoleon.volatility napoleon_coupon ^ 2 / 2)
           + Napoleon.volatility napoleon_coupon * 1).
Proof.
  apply (napoleon_path_steps_by_one_day napoleon_coupon (fun _ => 1) 3).
  rewrite napoleon_coupon_grid_length. lia.
Defined.

Lemma sum_map_le {A : Type} (f f' : A -> R) (l : list A) :
  (forall x : A, f x <= f' x) -> Np.sum (map f l) <= Np.sum (map f' l).
Proof.
  intros H. unfold Np.sum. induction l as [|x l IH]; cbn [map fold_right].
  - lra.
  - pose proof (H x). lra.
Qed.

(** X22 -- The Napoleon payoff is monotone in the coupon and in the floor:
    on one trajectory of positive prices, a pricer with a coupon and a floor
    that are not smaller never pays less. *)
Theorem napoleon_payoff_monotone_in_coupon_and_floor :
  forall (self self' : Napoleon.NapoleonOptionPricer)
         (stock_trajectory : list R),
    Forall (fun price => 0 < price) stock_trajectory ->
    Napoleon.fixed_coupon self <= Napoleon.fixed_coupon self' ->
    Napoleon.floor self <= Napoleon.floor self' ->
    Napoleon.calculate_option_payoff self stock_trajectory
    <= Napoleon.calculate_option_payoff self' stock_trajectory.
Proof.
  intros self self' S _ Hc Hf. rewrite !napoleon_payoff_repeats_blocks.
  apply Rmult_le_compat_l; [apply pos_INR|].
  unfold each_block_once. apply sum_map_le. intros block.
  unfold block_contribution. apply Rmax_lub.
  - apply Rle_trans
      with (Napoleon.fixed_coupon self' + Py.min_or 0 block);
      [lra | apply Rmax_l].
  - apply Rle_trans with (Napoleon.floor self'); [exact Hf | apply Rmax_r].
Qed.

Lemma napoleon_payoff_monotone_in_coupon_and_floor_witness :
  Napoleon.calculate_option_payoff napoleon_deep_floor (2 :: repeat 1 11)
  <= Napoleon.calculate_option_payoff napoleon_coupon (2 :: repeat 1 11).
Proof.
  apply napoleon_payoff_monotone_in_coupon_and_floor; [|cbn; lra|cbn; lra].
  constructor; [lra | apply Forall_repeat_pos; lra].
Defined.

(** ** The Vanilla run without volatility *)

Lemma vanilla_path_zero_volatility (self : Vanilla.McSimul) (t : list R)
  (g g' : rng) :
  Vanilla.volatility self = 0 ->
  fst (Vanilla.simulate_gbm self t g) = fst (Vanilla.simulate_gbm self t g').
Proof.
  intros Hv. unfold Vanilla.simulate_gbm.
  rewrite Hv, !gbm_path_unroll. cbn [fst].
  apply map_ext. intros i. rewrite !gbm_price_still_vol. reflexivity.
Qed.

(** X23 -- With a volatility of 0, a positive initial price and a maturity
    of at least 118/252 (so that the grid does not go back in time), every
    trial of the Vanilla run returns one and the same payoff, whatever the
    draws; the reported final price is that payoff and the reported error
    is 0. *)
Theorem vanilla_zero_volatility_run :
  forall (norm_ppf : R -> R) (self : Vanilla.McSimul) (g : rng),
    Vanilla.volatility self = 0 ->
    0 < Vanilla.initial_stock_price self ->
    118 / 252 <= Vanilla.maturity self ->
    (0 < Vanilla.num_simulations self)%Z ->
    let payoff :=
      Vanilla.calculate_payoff self
        (fst (Vanilla.simulate_gbm self (Vanilla.generate_time_vector self)
                (fun _ => 0))) in
    fst (Vanilla.simulate_monte_carlo self g)
    = repeat payoff (Z.to_nat (Vanilla.num_simulations self))
    /\ Vanilla.generate_convergence_curve norm_ppf self g
       = Py.Ok (payoff, 0).
Proof.
  intros norm_ppf self g Hv _ _ HN payoff.
  assert (Hmc : fst (Vanilla.simulate_monte_carlo self g)
                = repeat payoff (Z.to_nat (Vanilla.num_simulations self))).
  { unfold Vanilla.simulate_monte_carlo.
    rewrite vanilla_trials_blocks. cbn [app].
    rewrite (map_constant _ payoff), length_seq; [reflexivity|].
    intros k _. subst payoff. f_equal.
    apply vanilla_path_zero_volatility, Hv. }
  split; [exact Hmc|].
  unfold Vanilla.generate_convergence_curve.
  destruct (Vanilla.simulate_monte_carlo self g) as [payoffs g'].
  cbn [fst] in Hmc. subst payoffs.
  unfold Vanilla.perform_monte_carlo, convergence.
  rewrite convergence_constant. unfold final_report.
  cbn [moving_average lower_bound upper_bound].
  destruct (Z.to_nat (Vanilla.num_simulations self)) as [|n] eqn:Hn; [lia|].
  rewrite (last_item_nonempty _ 0) by discriminate.
  rewrite last_repeat. cbn [Py.bind]. f_equal. f_equal. ring.
Qed.

Lemma vanilla_zero_volatility_run_witness :
  fst (Vanilla.simulate_monte_carlo scenario_A (fun _ => 1))
  = repeat
      (Vanilla.calculate_payoff scenario_A
         (fst (Vanilla.simulate_gbm scenario_A
                 (Vanilla.generate_time_vector scenario_A) (fun _ => 0))))
      (Z.to_nat (Vanilla.num_simulations scenario_A))
  /\ Vanilla.generate_convergence_curve centred scenario_A (fun _ => 1)
     = Py.Ok
         (Vanilla.calculate_payoff scenario_A
            (fst (Vanilla.simulate_gbm scenario_A
                    (Vanilla.generate_time_vector scenario_A) (fun _ => 0))),
          0).
Proof.
  apply (vanilla_zero_volatility_run centred scenario_A (fun _ => 1)).
  - reflexivity.
  - cbn. lra.
  - cbn. lra.
  - reflexivity.
Defined.

(** ** The Himalaya series and payoff *)

Section HimalayaFacts.

Variable self : Himalaya.HimalayaOptionPricer.
Variable t : list R.

Let mu : R := Himalaya.mean self.
Let sigma : R := Himalaya.volatility self.

Lemma log_step_unroll (x_0 : R) (g : rng) (k : nat) :
  Himalaya.log_step self t
    (map (log_price x_0 mu sigma t g) (seq 0 (S k)), advance k g) (S k)
  = (map (log_price x_0 mu sigma t g) (seq 0 (S (S k))), advance (S k) g).
Proof.
  unfold Himalaya.log_step. cbn [normal advance].
  rewrite (seq_S (S k) 0), (map_app _ (seq 0 (S k))). cbn [map Nat.add].
  rewrite (seq_S k 0) at 2. rewrite map_app. cbn [map]. rewrite last_last.
  cbn [Nat.add].
  rewrite advance_nth. cbn [Nat.add log_price].
  replace (S k - 1)%nat with k by lia. reflexivity.
Qed.

Lemma log_fold_unroll (x_0 : R) (g : rng) (n : nat) :
  forall k : nat,
    fold_left (Himalaya.log_step self t) (seq (S k) n)
      (map (log_price x_0 mu sigma t g) (seq 0 (S k)), advance k g)
    = (map (log_price x_0 mu sigma t g) (seq 0 (S k + n)),
       advance (k + n) g).
Proof.
  induction n as [|n IH]; intros k.
  - cbn [seq fold_left]. rewrite !Nat.add_0_r. reflexivity.
  - change (seq (S k) (S n)) with (S k :: seq (S (S k)) n).
    cbn [fold_left]. rewrite log_step_unroll, IH.
    replace (S (S k) + n)%nat with (S k + S n)%nat by lia.
    replace (k + S n)%nat with (S k + n)%nat by lia. reflexivity.
Qed.

Lemma log_path_unroll (x_0 : R) (g : rng) :
  fold_left (Himalaya.log_step self t) (Py.range 1 (length t)) ([x_0], g)
  = (map (log_price x_0 mu sigma t g) (seq 0 (Nat.max (length t) 1)),
     advance (length t - 1) g).
Proof.
  unfold Py.range.
  change ([x_0], g)
    with (map (log_price x_0 mu sigma t g) (seq 0 1), advance 0 g).
  rewrite log_fold_unroll. f_equal. f_equal. f_equal. lia.
Qed.

Lemma log_price_ext (x_0 : R) (g g' : rng) (i : nat) :
  (forall k : nat, g k = g' k) ->
  log_price x_0 mu sigma t g i = log_price x_0 mu sigma t g' i.
Proof.
  intros H. induction i as [|i IH]; [reflexivity|].
  cbn [log_price]. rewrite IH, (H i). reflexivity.
Qed.

Lemma exp_log_price (S_0 : R) (g : rng) (i : nat) :
  0 < S_0 ->
  exp (log_price (ln S_0) mu sigma t g i) = gbm_price S_0 mu sigma t g i.
Proof.
  intros H. induction i as [|i IH]; cbn [log_price gbm_price].
  - apply exp_ln, H.
  - rewrite Rplus_assoc, exp_plus, IH. reflexivity.
Qed.

Lemma asset_fold_unroll (n : nat) :
  forall (k : nat) (acc : list (list R)) (g : rng),
    fst (fold_left (Himalaya.asset_turn self t) (seq k n) (acc, g))
    = acc
      ++ map (fun j => series_from self t (advance ((j - k) * (length t - 1)) g) j)
             (seq k n).
Proof.
  induction n as [|n IH]; intros k acc g.
  - cbn [seq fold_left fst map]. rewrite app_nil_r. reflexivity.
  - cbn [seq fold_left]. unfold Himalaya.asset_turn at 2.
    rewrite log_path_unroll, IH, <- app_assoc. f_equal.
    cbn [map app]. f_equal.
    + rewrite Nat.sub_diag. reflexivity.
    + apply map_ext_in. intros j Hj. apply in_seq in Hj.
      unfold series_from. apply map_ext. intros i. apply log_price_ext.
      intros m. rewrite advance_add. rewrite !advance_nth. f_equal.
      replace (j - k)%nat with (S (j - S k)) by lia. cbn [Nat.mul]. lia.
Qed.

Lemma simulate_trajectory_unroll (g : rng) :
  fst (Himalaya.simulate_trajectory self t g)
  = map (fun j => series_from self t (advance (j * (length t - 1)) g) j)
        (seq 0 (length (Himalaya.initial_asset_values self))).
Proof.
  unfold Himalaya.simulate_trajectory, Py.range.
  rewrite Nat.sub_0_r, asset_fold_unroll. cbn [app].
  apply map_ext. intros j. rewrite Nat.sub_0_r. reflexivity.
Qed.

End HimalayaFacts.

Lemma nth_map_seq_list (f : nat -> list R) (n i : nat) :
  (i < n)%nat -> nth i (map f (seq 0 n)) [] = f i.
Proof.
  intros Hi.
  rewrite (nth_indep _ [] (f O)) by (rewrite length_map, length_seq; exact Hi).
  rewrite map_nth, seq_nth by exact Hi. reflexivity.
Qed.

(** X24 -- [simulate_trajectory] returns one series per initial asset value.
    For an asset of positive initial value, the exponential of its series is
    the path [simulate_gbm] builds from that value with the same drift,
    volatility and grid; the asset of index [j] reads the draws from index
    [j * (len(grid) - 1)] on, so no two assets share a draw. *)
Theorem himalaya_series_are_gbm_paths :
  forall (self : Himalaya.HimalayaOptionPricer) (time_vector : list R)
         (g : rng) (j : nat),
    (j < length (Himalaya.initial_asset_values self))%nat ->
    0 < nth j (Himalaya.initial_asset_values self) 0 ->
    length (fst (Himalaya.simulate_trajectory self time_vector g))
    = length (Himalaya.initial_asset_values self)
    /\ map exp (nth j (fst (Himalaya.simulate_trajectory self time_vector g))
                  [])
       = fst (gbm_path (nth j (Himalaya.initial_asset_values self) 0)
                (Himalaya.mean self) (Himalaya.volatility self) time_vector
                (advance (j * (length time_vector - 1)) g)).
Proof.
  intros self t g j Hj Hpos. rewrite simulate_trajectory_unroll.
  rewrite length_map, length_seq. split; [reflexivity|].
  rewrite nth_map_seq_list by exact Hj.
  rewrite gbm_path_unroll. cbn [fst]. unfold series_from.
  rewrite map_map. apply map_ext. intros i. apply exp_log_price, Hpos.
Qed.

Lemma himalaya_series_are_gbm_paths_witness :
  length (fst (Himalaya.simulate_trajectory himalaya_two_steps [0; 1]
                 (fun _ => 1)))
  = length (Himalaya.initial_asset_values himalaya_two_steps)
  /\ map exp (nth 0 (fst (Himalaya.simulate_trajectory himalaya_two_steps
                            [0; 1] (fun _ => 1))) [])
     = fst (gbm_path (nth 0 (Himalaya.initial_asset_values himalaya_two_steps)
                        0)
              (Himalaya.mean himalaya_two_steps)
              (Himalaya.volatility himalaya_two_steps) [0; 1]
              (advance (0 * (length [0; 1] - 1)) (fun _ => 1))).
Proof.
  apply (himalaya_series_are_gbm_paths himalaya_two_steps [0; 1]
           (fun _ => 1) 0).
  - cbn. lia.
  - cbn. apply exp_pos.
Defined.

Lemma np_max_least_shift (best kmin : R) (ks : list R) :
  In kmin ks -> (forall k : R, In k ks -> kmin <= k) ->
  Np.max (map (fun k => best - k) ks) = Py.Ok (best - kmin).
Proof.
  intros Hin Hmin. apply np_max_greatest.
  - apply (in_map (fun k => best - k)), Hin.
  - intros v Hv. apply in_map_iff in Hv. destruct Hv as [k [<- Hk]].
    specialize (Hmin k Hk). lra.
Qed.

(** X25 -- With several strikes the Himalaya payoff is the greatest value
    [best] of [exp(logPrice)] over all series and grid steps less the
    smallest strike, and with one strike it is [best] less that strike;
    nothing floors it at 0, so it is negative when the strike is above
    [best]. *)
Theorem himalaya_payoff_is_best_less_smallest_strike :
  forall (self : Himalaya.HimalayaOptionPricer) (trajectory : list (list R))
         (series : list R) (logp best kmin : R),
    (forall s : list R, In s trajectory -> length s = length series) ->
    In series trajectory -> In logp series -> best = exp logp ->
    (forall (s : list R) (v : R), In s trajectory -> In v s -> exp v <= best) ->
    (Himalaya.strike_price self = Himalaya.Scalar kmin
     \/ exists ks : list R,
          Himalaya.strike_price self = Himalaya.Vector ks
          /\ In kmin ks /\ forall k : R, In k ks -> kmin <= k) ->
    Himalaya.calculate_payoff self trajectory = Py.Ok (best - kmin)
    /\ (best < kmin ->
        exists p : R,
          Himalaya.calculate_payoff self trajectory = Py.Ok p /\ p < 0).
Proof.
  intros self trajectory series logp best kmin _ Hs Hl Hbest Hub Hk.
  assert (Hpay : Himalaya.calculate_payoff self trajectory
                 = Py.Ok (best - kmin)).
  { rewrite himalaya_payoff_unfold. rewrite (np_max_greatest _ best).
    - cbn [Py.bind]. destruct Hk as [-> | [ks [-> [Hin Hmin]]]].
      + reflexivity.
      + cbn [Himalaya.max_axis0]. apply np_max_least_shift; assumption.
    - apply in_concat. exists (map exp series). split.
      + apply in_map, Hs.
      + rewrite Hbest. apply in_map, Hl.
    - intros v Hv. apply in_concat in Hv. destruct Hv as [row [Hrow Hv]].
      apply in_map_iff in Hrow. destruct Hrow as [s [<- Hs']].
      apply in_map_iff in Hv. destruct Hv as [w [<- Hw]].
      apply (Hub s w Hs' Hw). }
  split; [exact Hpay|]. intros Hlt. exists (best - kmin).
  split; [exact Hpay | lra].
Qed.

Lemma himalaya_payoff_is_best_less_smallest_strike_witness :
  Himalaya.calculate_payoff himalaya_two_strikes [[0]] = Py.Ok (exp 0 - 2)
  /\ exists p : R,
       Himalaya.calculate_payoff himalaya_two_strikes [[0]] = Py.Ok p
       /\ p < 0.
Proof.
  destruct (himalaya_payoff_is_best_less_smallest_strike
              himalaya_two_strikes [[0]] [0] 0 (exp 0) 2) as [Hp Hneg].
  - intros s [<- | []]. reflexivity.
  - left. reflexivity.
  - left. reflexivity.
  - reflexivity.
  - intros s v [<- | []] [<- | []]. lra.
  - right. exists [3; 2]. split; [reflexivity | split].
    + right. left. reflexivity.
    + intros k [<- | [<- | []]]; lra.
  - split; [exact Hp|]. apply Hneg. rewrite exp_0. lra.
Defined.

(** X26 -- On series of one length [n], [calculate_payoff] raises exactly
    when there is no log-price at all (no series, or [n = 0]) or the list of
    strikes is empty, and the error is then a [ValueError]; otherwise it
    returns a number. *)
Theorem himalaya_payoff_raises_on_empty_input :
  forall (self : Himalaya.HimalayaOptionPricer) (trajectory : list (list R))
         (n : nat),
    (forall s : list R, In s trajectory -> length s = n) ->
    match Himalaya.calculate_payoff self trajectory with
    | Py.Raise e =>
        e = Py.ValueError
        /\ (trajectory = [] \/ n = 0%nat
            \/ Himalaya.strike_price self = Himalaya.Vector [])
    | Py.Ok _ =>
        trajectory <> [] /\ n <> 0%nat
        /\ Himalaya.strike_price self <> Himalaya.Vector []
    end.
Proof.
  intros self trajectory n Hrect. rewrite himalaya_payoff_unfold.
  destruct trajectory as [|s trajectory].
  - cbn. split; [reflexivity | left; reflexivity].
  - assert (Hs : length s = n) by (apply Hrect; left; reflexivity).
    destruct s as [|x s].
    + assert (Hall : concat (map (map exp) ([] :: trajectory)) = []).
      { apply concat_nil_Forall. apply Forall_forall. intros row Hrow.
        apply in_map_iff in Hrow. destruct Hrow as [r [<- Hr]].
        specialize (Hrect r Hr). rewrite <- Hs in Hrect. cbn in Hrect.
        destruct r; [reflexivity | discriminate]. }
      rewrite Hall. cbn. split; [reflexivity|]. right. left.
      symmetry. exact Hs.
    + cbn [map concat app Np.max Py.bind].
      destruct (Himalaya.strike_price self) as [k | [|k ks]];
        cbn [Himalaya.max_axis0 map Np.max].
      * repeat split; try discriminate. rewrite <- Hs. discriminate.
      * split; [reflexivity|]. right. right. reflexivity.
      * repeat split; try discriminate. rewrite <- Hs. discriminate.
Qed.

Lemma himalaya_payoff_raises_on_empty_input_witness :
  match Himalaya.calculate_payoff himalaya_two_strikes [[0]; [1]] with
  | Py.Raise e =>
      e = Py.ValueError
      /\ ([[0]; [1]] = [] \/ 1%nat = 0%nat
          \/ Himalaya.strike_price himalaya_two_strikes = Himalaya.Vector [])
  | Py.Ok _ =>
      [[0]; [1]] <> [] /\ 1%nat <> 0%nat
      /\ Himalaya.strike_price himalaya_two_strikes <> Himalaya.Vector []
  end.
Proof.
  apply (himalaya_payoff_raises_on_empty_input himalaya_two_strikes
           [[0]; [1]] 1).
  intros s [<- | [<- | []]]; reflexivity.
Defined.








(** ** The lookups of the RAROC calculator *)

Module RarocFacts.

Import String.
Local Open Scope string_scope.

(** X28 -- [creditWarranties] returns the amount less the haircut of the
    warranty type for the four types of the table, a haircut between one
    fifth and one half, and raises [TypeError] for any other type: the entry
    [Autres] is not a default. *)
Theorem credit_warranties_known_types_only :
  forall customerMaturity : Raroc.CustomerMaturity,
    match Raroc.creditWarranties customerMaturity with
    | Raroc.Return value =>
        exists haircut : R,
          In (Raroc.warranties customerMaturity, haircut) Raroc.warrantiesTab
          /\ 1 / 5 <= haircut <= 1 / 2
          /\ value
             = IZR (Raroc.warrantAmount customerMaturity) * (1 - haircut)
    | Raroc.Raise e =>
        e = Raroc.TypeError
        /\ ~ In (Raroc.warranties customerMaturity)
               ["Immobilier"; "Titres"; "Véhicule"; "Autres"]
    end.
Proof.
  intros [w amount]. unfold Raroc.creditWarranties, Raroc.warrantiesTab.
  cbn [Raroc.get Raroc.warranties Raroc.warrantAmount].
  destruct (String.eqb_spec "Immobilier" w) as [<- | H1].
  { eexists. split; [left; reflexivity|]. split; [lra | reflexivity]. }
  destruct (String.eqb_spec "Titres" w) as [<- | H2].
  { eexists. split; [right; left; reflexivity|].
    split; [lra | reflexivity]. }
  destruct (String.eqb_spec "Véhicule" w) as [<- | H3].
  { eexists. split; [right; right; left; reflexivity|].
    split; [lra | reflexivity]. }
  destruct (String.eqb_spec "Autres" w) as [<- | H4].
  { eexists. split; [right; right; right; left; reflexivity|].
    split; [lra | reflexivity]. }
  split; [reflexivity|]. intros [H | [H | [H | [H | []]]]]; congruence.
Qed.

(** X29 -- [countryData] returns the row of [countryList] for the three
    names of the list, and raises [UnboundLocalError] for any other
    country: the row [Autres] is not a default. *)
Theorem country_data_listed_countries_only :
  forall customerData : Raroc.CustomerData,
    match Raroc.countryData customerData with
    | Raroc.Return (lgd, countryRating, transferRate) =>
        In (Raroc.country customerData, lgd, countryRating, transferRate)
           Raroc.countryList
    | Raroc.Raise e =>
        e = Raroc.UnboundLocalError
        /\ ~ In (Raroc.country customerData)
               ["France"; "Etats-Unis"; "Autres"]
    end.
Proof.
  intros cd. unfold Raroc.countryData, Raroc.countryList.
  cbn [fold_left Raroc.country_turn].
  destruct (String.eqb_spec "Autres" (Raroc.country cd)) as [<- | H3].
  { right. right. left. reflexivity. }
  destruct (String.eqb_spec "Etats-Unis" (Raroc.country cd)) as [<- | H2].
  { right. left. reflexivity. }
  destruct (String.eqb_spec "France" (Raroc.country cd)) as [<- | H1].
  { left. reflexivity. }
  split; [reflexivity|]. intros [H | [H | [H | []]]]; congruence.
Qed.

End RarocFacts.
